(** * smart-rom-cache: the cache engine and the access-triggered fetch pipeline

    A shallow embedding of [src/cache/engine.py] ([ROMCacheManager]) and of
    the download hand-off of [src/integration/emulationstation.py]
    ([EmulationStationIntegration.handle_rom_access] and
    [_download_rom_async]), with the properties of the design document
    stated over it.  The rest of the engine ([set_favorite],
    [list_cached_roms]), the ROM identifiers and download URLs of the
    integration layer, strategy detection and the cleanup endpoint of
    [src/api/app.py] are embedded too, with properties read off the code.

    Modelling conventions.
    - The SQLite table [cache_entries] is a finite map keyed by its
      [PRIMARY KEY] column [rom_id]; the value holds the other columns.
    - The file system is a finite map from path strings to file contents.
    - Python [float]s (timestamps, gigabyte quantities) are exact rationals
      [Q]; [int(x)] on a float is truncation toward zero.
    - The clock and the network are inputs of the operations that read
      them. *)

From Stdlib Require Import ZArith QArith Qround Lia Lqa List Ascii String.
From Stdlib.Strings Require Import Byte.
From Stdlib Require Import Sorting.Sorted Permutation.
From stdpp Require Import gmap strings list fin_maps sorting.

Local Open Scope string_scope.
Local Open Scope Z_scope.

(** ** Numbers *)

Module Num.

(** [1024**3] *)
Definition GiB : Z := 1024 ^ 3.

Definition Qltb (x y : Q) : bool := negb (Qle_bool y x).
Definition Qgtb (x y : Q) : bool := Qltb y x.

(** Python's [int(x)] for a float [x]: the integer part, rounding toward
    zero. *)
Definition py_int (x : Q) : Z := Z.quot (Qnum x) (Zpos (Qden x)).

(** True division [a / b] of two Python ints, [b] non-zero. *)
Definition int_div (a b : Z) : Q := (inject_Z a / inject_Z b)%Q.

End Num.
Import Num.

(** ** Data model ([engine.py], lines 19-46) *)

(** The dataclass [CacheEntry]. *)
Record CacheEntry := mkCacheEntry {
  rom_id : string;
  filename : string;
  size_bytes : Z;
  last_accessed : Q;
  download_time : Q;
  priority_score : Z;
  is_favorite : bool
}.

(** The dataclass [CacheConfig]. *)
Record CacheConfig := mkCacheConfig {
  max_size_gb : Q;
  cleanup_threshold : Q;
  min_free_space_gb : Q;
  favorite_protection : bool;
  platforms_priority : gmap string Z
}.

(** One row of table [cache_entries] without its key column [rom_id].
    Column [file_hash] is never written and is left out. *)
Record Row := mkRow {
  row_filename : string;
  row_size_bytes : Z;
  row_last_accessed : Q;
  row_download_time : Q;
  row_priority_score : Z;
  row_is_favorite : bool;
  row_platform : option string
}.

(** Contents of a file. *)
Abbreviation blob := (list Byte.byte).

(** What a [ROMCacheManager] owns: its cache directory, the metadata table
    and the files on disk (keyed by path). *)
Record Store := mkStore {
  cache_dir : string;
  db : gmap string Row;
  files : gmap string blob
}.

Definition set_db (st : Store) (d : gmap string Row) : Store :=
  mkStore (cache_dir st) d (files st).

Definition set_files (st : Store) (f : gmap string blob) : Store :=
  mkStore (cache_dir st) (db st) f.

(** ** Paths *)

Module PathLib.

(** [dir / name] for a single path component [name]. *)
Definition join (dir name : string) : string := dir ++ "/" ++ name.

(** Index of the last occurrence of character [c] ([str.rfind]), if any. *)
Fixpoint rfind (c : ascii) (s : string) : option nat :=
  match s with
  | EmptyString => None
  | String a rest =>
      match rfind c rest with
      | Some i => Some (S i)
      | None => if Ascii.eqb a c then Some O else None
      end
  end.

(** [PurePath.suffix] of the final component: the part from the last dot
    on, unless that dot is the first or the last character. *)
Definition suffix (name : string) : string :=
  match rfind "." name with
  | Some i =>
      if (0 <? i)%nat && (S i <? String.length name)%nat
      then substring i (String.length name - i) name
      else ""
  | None => ""
  end.

(** [PurePath.with_suffix] on the final component. *)
Definition with_suffix (name sfx : string) : string :=
  let old := suffix name in
  substring 0 (String.length name - String.length old) name ++ sfx.

(** [PurePath.name]: the final component. *)
Definition name (p : string) : string :=
  match rfind "/" p with
  | Some i => substring (S i) (String.length p - S i) p
  | None => p
  end.

End PathLib.

(** ** Cache statistics ([get_cache_stats], lines 79-100) *)

Record Stats := mkStats {
  total_files : Z;
  total_size_gb : Q;
  stat_max_size_gb : Q;
  usage_percent : Q;
  free_space_gb : Q
}.

(** [SELECT SUM(size_bytes)], with [or 0] for the empty table. *)
Definition sum_size_bytes (d : gmap string Row) : Z :=
  map_fold (fun _ r acc => row_size_bytes r + acc) 0 d.

(** The [COUNT] aggregate over all rows. *)
Definition count_rows (d : gmap string Row) : Z := Z.of_nat (size d).

Definition get_cache_stats (cfg : CacheConfig) (st : Store) : Stats :=
  let file_count := count_rows (db st) in
  let total_size := sum_size_bytes (db st) in
  let max_size_bytes := py_int (max_size_gb cfg * inject_Z GiB) in
  let usage :=
    if 0 <? max_size_bytes
    then (int_div total_size max_size_bytes * 100)%Q
    else 0%Q in
  mkStats file_count
          (int_div total_size GiB)
          (max_size_gb cfg)
          usage
          (max_size_gb cfg - int_div total_size GiB)%Q.

(** ** Lookup ([is_cached], [get_cache_path], lines 102-109) *)

Definition get_cache_path (st : Store) (rid : string) : string :=
  PathLib.join (cache_dir st) rid.

(** [Path.exists] *)
Definition path_exists (st : Store) (p : string) : bool :=
  bool_decide (is_Some (files st !! p)).

Definition is_cached (st : Store) (rid : string) : bool :=
  let cache_path := PathLib.join (cache_dir st) rid in
  path_exists st cache_path.

(** ** Priority score ([calculate_priority_score], lines 111-136) *)

(** Truth value of an optional string: [None] and [""] are false. *)
Definition truthy (platform : option string) : bool :=
  match platform with
  | None => false
  | Some p => negb (String.eqb p "")
  end.

(** [now] is the reading of [time.time()]. *)
Definition calculate_priority_score (cfg : CacheConfig) (now : Q)
    (entry : CacheEntry) (platform : option string) : Z :=
  let score := 0 in
  let score :=
    match platform with
    | Some p =>
        if truthy platform then
          match platforms_priority cfg !! p with
          | Some w => score + w * 10
          | None => score
          end
        else score
    | None => score
    end in
  let hours_since_access := ((now - last_accessed entry) / 3600)%Q in
  let score :=
    if Qltb hours_since_access 24 then score + 50
    else if Qltb hours_since_access 168 then score + 20
    else score in
  let score := if is_favorite entry then score + 100 else score in
  let score :=
    if size_bytes entry <? 100 * 1024 * 1024 then score + 10
    else if size_bytes entry >? 5 * GiB then score - 10
    else score in
  score.

(** [needs_cleanup], lines 138-141 *)
Definition needs_cleanup (cfg : CacheConfig) (st : Store) : bool :=
  Qgtb (usage_percent (get_cache_stats cfg st)) (cleanup_threshold cfg * 100)%Q.

(** ** Eviction ([cleanup_cache], lines 143-192) *)

(** The comparison of [ORDER BY priority_score ASC, last_accessed ASC] on
    two rows of the result set. *)
Definition order_leb (a b : string * Row) : bool :=
  (row_priority_score a.2 <? row_priority_score b.2)
  || ((row_priority_score a.2 =? row_priority_score b.2)
      && Qle_bool (row_last_accessed a.2) (row_last_accessed b.2)).

Definition order_le (a b : string * Row) : Prop := Is_true (order_leb a b).

(** The rows the cursor yields.  The result set of an [ORDER BY] query is
    sorted when the query starts, so the deletions made while the cursor
    is read do not change it. *)
Definition select_ordered (d : gmap string Row) : list (string * Row) :=
  merge_sort order_le (map_to_list d).

(** [Path.unlink] *)
Definition unlink (p : string) (st : Store) : Store :=
  set_files st (delete p (files st)).

(** [DELETE FROM cache_entries WHERE rom_id = ?] *)
Definition delete_row (rid : string) (st : Store) : Store :=
  set_db st (delete rid (db st)).

(** The variables the loop of [cleanup_cache] updates. *)
Record LoopState := mkLoop {
  removed_roms : list string;
  freed_bytes : Z;
  loop_store : Store
}.

Fixpoint cleanup_loop (cfg : CacheConfig) (bytes_to_free : Z)
    (cursor : list (string * Row)) (ls : LoopState) : LoopState :=
  match cursor with
  | [] => ls
  | (rid, row) :: rest =>
      let size := row_size_bytes row in
      if row_is_favorite row && favorite_protection cfg then
        cleanup_loop cfg bytes_to_free rest ls
      else
        let cache_path := get_cache_path (loop_store ls) rid in
        if path_exists (loop_store ls) cache_path then
          let ls' :=
            mkLoop (removed_roms ls ++ [rid])
                   (freed_bytes ls + size)
                   (delete_row rid (unlink cache_path (loop_store ls))) in
          if freed_bytes ls' >=? bytes_to_free then ls'
          else cleanup_loop cfg bytes_to_free rest ls'
        else cleanup_loop cfg bytes_to_free rest ls
  end.

(** [int((target_free_gb - current_stats['free_space_gb']) * 1024**3)] *)
Definition bytes_to_free (cfg : CacheConfig) (st : Store) (target_free_gb : Q) : Z :=
  py_int ((target_free_gb - free_space_gb (get_cache_stats cfg st)) * inject_Z GiB).

(** [target_free_gb = None] selects [config.min_free_space_gb]. *)
Definition cleanup_run (cfg : CacheConfig) (target_free_gb : option Q)
    (st : Store) : LoopState :=
  let target := default (min_free_space_gb cfg) target_free_gb in
  let removed := [] in
  let cursor := select_ordered (db st) in
  let to_free := bytes_to_free cfg st target in
  if to_free <=? 0 then mkLoop removed 0 st
  else cleanup_loop cfg to_free cursor (mkLoop removed 0 st).

(** The returned list of removed ids and the store left behind. *)
Definition cleanup_cache (cfg : CacheConfig) (target_free_gb : option Q)
    (st : Store) : list string * Store :=
  let ls := cleanup_run cfg target_free_gb st in
  (removed_roms ls, loop_store ls).

(** ** Ingestion ([add_to_cache], lines 194-262) *)

(** Exceptions the modelled code can raise. *)
Inductive Exc :=
  | ConnectionError
  | HTTPError
  | ValueError
  | NotEnoughSpace
  | ChunkedEncodingError
  | NameError.

Inductive Result (A : Type) :=
  | Returned (a : A)
  | Raised (e : Exc).
Arguments Returned {A} a.
Arguments Raised {A} e.

(** The [content-length] header of a response: absent, a decimal number,
    or text that [int] rejects. *)
Inductive ContentLength :=
  | NoLength
  | Length (n : Z)
  | BadLength.

(** A streamed response: whether [raise_for_status] passes, the
    advertised length, the chunks [iter_content] yields and whether the
    stream breaks after the last of them. *)
Record Response := mkResponse {
  status_ok : bool;
  content_length : ContentLength;
  chunks : list blob;
  stream_breaks : bool
}.

(** What an operation reads from outside: the answer of [requests.get]
    per URL ([None] when the connection fails) and the two readings of
    [time.time()], the one of [add_to_cache] and the later one of
    [calculate_priority_score]. *)
Record Env := mkEnv {
  requests_get : string -> option Response;
  time_now : Q;
  time_score : Q
}.

(** [int(response.headers.get('content-length', 0))] *)
Definition header_int (h : ContentLength) : Result Z :=
  match h with
  | NoLength => Returned 0
  | Length n => Returned n
  | BadLength => Raised ValueError
  end.

(** [open(p, 'wb')] followed by the writes of all chunks. *)
Definition write_file (p : string) (content : blob) (st : Store) : Store :=
  set_files st (<[p := content]> (files st)).

(** [Path.rename] of an existing file. *)
Definition rename (src dst : string) (st : Store) : Store :=
  match files st !! src with
  | Some content => set_files st (<[dst := content]> (delete src (files st)))
  | None => st
  end.

(** [INSERT OR REPLACE INTO cache_entries]; column [is_favorite] is not
    listed and takes its default. *)
Definition insert_or_replace (rid : string) (row : Row) (st : Store) : Store :=
  set_db st (<[rid := row]> (db st)).

Definition temp_path_of (st : Store) (rid : string) : string :=
  PathLib.join (cache_dir st) (PathLib.with_suffix rid ".tmp").

(** [(max_size_gb - stats['total_size_gb']) * 1024**3] *)
Definition available_space (cfg : CacheConfig) (st : Store) : Q :=
  ((max_size_gb cfg - total_size_gb (get_cache_stats cfg st)) * inject_Z GiB)%Q.

(** The space check, lines 212-223: one more cleanup when the advertised
    size does not fit, and an exception when it still does not. *)
Definition ensure_space (cfg : CacheConfig) (file_size : Z) (fname : string)
    (st : Store) : Result unit * Store :=
  if Qgtb (inject_Z file_size) (available_space cfg st) then
    let st :=
      (cleanup_cache cfg
         (Some (int_div file_size GiB + min_free_space_gb cfg)%Q) st).2 in
    if Qgtb (inject_Z file_size) (available_space cfg st)
    then (Raised NotEnoughSpace, st)
    else (Returned tt, st)
  else (Returned tt, st).

(** Lines 225-256: stream to the temporary file, move it to the blob
    path, insert the record. *)
Definition store_download (cfg : CacheConfig) (env : Env) (st : Store)
    (rid cache_path fname : string) (platform : option string)
    (response : Response) (file_size : Z) : Result bool * Store :=
  let temp_path := temp_path_of st rid in
  let st := write_file temp_path (concat (chunks response)) st in
  if stream_breaks response then (Raised ChunkedEncodingError, st) else
  let st := rename temp_path cache_path st in
  let now := time_now env in
  let entry := mkCacheEntry rid fname file_size now now 0 false in
  let score := calculate_priority_score cfg (time_score env) entry platform in
  let st :=
    insert_or_replace rid
      (mkRow fname file_size now now score false platform) st in
  (Returned true, st).

(** The body of the [try] block. *)
Definition add_to_cache_try (cfg : CacheConfig) (env : Env) (st : Store)
    (rid source_url fname : string) (platform : option string)
    : Result bool * Store :=
  let cache_path := get_cache_path st rid in
  match requests_get env source_url with
  | None => (Raised ConnectionError, st)
  | Some response =>
      if negb (status_ok response) then (Raised HTTPError, st) else
      match header_int (content_length response) with
      | Raised e => (Raised e, st)
      | Returned file_size =>
          match ensure_space cfg file_size fname st with
          | (Raised e, st) => (Raised e, st)
          | (Returned _, st) =>
              store_download cfg env st rid cache_path fname platform
                response file_size
          end
      end
  end.

Definition add_to_cache (cfg : CacheConfig) (env : Env) (st : Store)
    (rid source_url fname : string) (platform : option string)
    : Result bool * Store :=
  let st := if needs_cleanup cfg st then (cleanup_cache cfg None st).2 else st in
  let cache_path := get_cache_path st rid in
  match add_to_cache_try cfg env st rid source_url fname platform with
  | (Raised e, st) =>
      (* except Exception: cleanup on failure, then re-raise *)
      let st := if path_exists st cache_path then unlink cache_path st else st in
      (Raised e, st)
  | (Returned b, st) => (Returned b, st)
  end.

(** ** The access-triggered fetch pipeline ([emulationstation.py]) *)

Module Integration.

Inductive LinkStrategy := SYMLINK | HARDLINK | JUNCTION | COPY | DEVMODE_SYMLINK.

(** The dataclass [ROMServer] ([auth_headers] plays no role here). *)
Record ROMServer := mkROMServer {
  server_name : string;
  base_url : string;
  platform_paths : gmap string string
}.

(** [s.split('_')[0]] *)
Fixpoint split_head (s : string) : string :=
  match s with
  | EmptyString => EmptyString
  | String c rest =>
      if Ascii.eqb c "_" then EmptyString else String c (split_head rest)
  end.

(** [s.rstrip('/')] *)
Fixpoint rstrip_slash (s : string) : string :=
  match s with
  | EmptyString => EmptyString
  | String c rest =>
      let rest' := rstrip_slash rest in
      if String.eqb rest' "" && Ascii.eqb c "/" then EmptyString
      else String c rest'
  end.

(** The network as the pipeline sees it: the status code of a [HEAD]
    probe per URL ([None] when the request raises) and what the cache
    engine reads. *)
Record World := mkWorld {
  requests_head : string -> option Z;
  engine_env : Env
}.

(** [_build_download_url], lines 437-453: the first server that maps the
    platform and answers the probe with status 200. *)
Fixpoint build_download_url (w : World) (servers : list ROMServer)
    (platform fname : string) : option string :=
  match servers with
  | [] => None
  | server :: rest =>
      match platform_paths server !! platform with
      | Some server_path =>
          let url := rstrip_slash (base_url server) ++ "/" ++ server_path
                     ++ "/" ++ fname in
          match requests_head w url with
          | Some 200 => Some url
          | _ => build_download_url w rest platform fname
          end
      | None => build_download_url w rest platform fname
      end
  end.

(** [CrossPlatformLinker.update_cached_file], lines 197-209 *)
Definition update_cached_file (strategy : LinkStrategy)
    (cache_path target_path : string) (st : Store) : Store :=
  match strategy with
  | COPY =>
      match files st !! cache_path, files st !! target_path with
      | Some content, Some _ => write_file target_path content st
      | _, _ => st
      end
  | _ => st
  end.

(** [mark_accessed], [engine.py] lines 264-274 *)
Definition mark_accessed (now : Q) (rid : string) (st : Store) : Store :=
  set_db st
    (alter (fun r => mkRow (row_filename r) (row_size_bytes r) now
                       (row_download_time r) (row_priority_score r)
                       (row_is_favorite r) (row_platform r))
           rid (db st)).

(** Values held by the variables of a running call. *)
Inductive Value :=
  | VStr (s : string)
  | VPath (p : string)
  | VEvent (e : nat)
  | VGlobal (x : string).

(** Names bound at the top level of [emulationstation.py] (imports,
    classes, [logger]); no builtin is called [target_path] either. *)
Definition module_names : list string :=
  ["os"; "sys"; "time"; "threading"; "shutil"; "subprocess"; "ET"; "Path";
   "Dict"; "List"; "Optional"; "Callable"; "Observer";
   "FileSystemEventHandler"; "requests"; "logging"; "dataclass"; "Enum";
   "ROMCacheManager"; "CacheConfig"; "LinkStrategy"; "CrossPlatformLinker";
   "logger"; "ROMServer"; "ROMAccessHandler"; "EmulationStationIntegration"].

(** Reading a name inside a function body: a local variable if the call
    has bound it, else a module-level name, else [NameError]. *)
Definition load_name (locals : gmap string Value) (x : string) : Result Value :=
  match locals !! x with
  | Some v => Returned v
  | None =>
      if bool_decide (x ∈ module_names) then Returned (VGlobal x)
      else Raised NameError
  end.

(** Where a thread stands.  [H] points are in [handle_rom_access]
    (lines 362-396), [D] points in [_download_rom_async] (398-435). *)
Inductive Pc :=
  | H_is_cached      (* 366 *)
  | H_mark_accessed  (* 368 *)
  | H_acquire        (* 373 *)
  | H_in_lock        (* 374, then 377 or 381-382 *)
  | H_wait (e : nat) (* 377, the lock is held *)
  | H_start_thread   (* 386-390 *)
  | H_except_set     (* 394 *)
  | H_except_acquire (* 395 *)
  | H_except_pop     (* 396 *)
  | D_download       (* 400-429 *)
  | D_finally_set    (* 433 *)
  | D_finally_acquire (* 434 *)
  | D_finally_pop    (* 435 *)
  | Done.

Record Thread := mkThread {
  pc : Pc;
  locals : gmap string Value
}.

(** An [EmulationStationIntegration] with the threads running its
    methods.  [event_flags] are the [threading.Event] objects in order of
    creation; [transfers] counts the bulk downloads ([requests.get]) made
    so far. *)
Record Machine := mkMachine {
  cache_manager : Store;
  config : CacheConfig;
  linker_strategy : LinkStrategy;
  rom_servers : list ROMServer;
  downloading_roms : gmap string nat;
  event_flags : list bool;
  download_lock : option nat;
  threads : list Thread;
  transfers : nat
}.

Definition with_thread (t : nat) (th : Thread) (m : Machine) : Machine :=
  mkMachine (cache_manager m) (config m) (linker_strategy m) (rom_servers m)
    (downloading_roms m) (event_flags m) (download_lock m)
    (<[t := th]> (threads m)) (transfers m).

Definition with_cache (st : Store) (m : Machine) : Machine :=
  mkMachine st (config m) (linker_strategy m) (rom_servers m)
    (downloading_roms m) (event_flags m) (download_lock m)
    (threads m) (transfers m).

Definition with_lock (l : option nat) (m : Machine) : Machine :=
  mkMachine (cache_manager m) (config m) (linker_strategy m) (rom_servers m)
    (downloading_roms m) (event_flags m) l (threads m) (transfers m).

Definition with_downloading (d : gmap string nat) (m : Machine) : Machine :=
  mkMachine (cache_manager m) (config m) (linker_strategy m) (rom_servers m)
    d (event_flags m) (download_lock m) (threads m) (transfers m).

Definition with_events (ev : list bool) (m : Machine) : Machine :=
  mkMachine (cache_manager m) (config m) (linker_strategy m) (rom_servers m)
    (downloading_roms m) ev (download_lock m) (threads m) (transfers m).

Definition spawn (th : Thread) (m : Machine) : Machine :=
  mkMachine (cache_manager m) (config m) (linker_strategy m) (rom_servers m)
    (downloading_roms m) (event_flags m) (download_lock m)
    (threads m ++ [th]) (transfers m).

Definition count_transfer (m : Machine) : Machine :=
  mkMachine (cache_manager m) (config m) (linker_strategy m) (rom_servers m)
    (downloading_roms m) (event_flags m) (download_lock m)
    (threads m) (S (transfers m)).

Definition goto (t : nat) (th : Thread) (p : Pc) (m : Machine) : Machine :=
  with_thread t (mkThread p (locals th)) m.

Definition local_str (th : Thread) (x : string) : string :=
  match locals th !! x with
  | Some (VStr s) => s
  | Some (VPath s) => s
  | _ => ""
  end.

Definition local_event (th : Thread) : nat :=
  match locals th !! "download_event" with
  | Some (VEvent e) => e
  | _ => O
  end.

(** The arguments [(rom_id, target_path, download_event)] of the new
    thread, read in the frame of [handle_rom_access]. *)
Definition thread_args (th : Thread) : Result (Value * Value * Value) :=
  match load_name (locals th) "rom_id" with
  | Raised e => Raised e
  | Returned a =>
      match load_name (locals th) "target_path" with
      | Raised e => Raised e
      | Returned b =>
          match load_name (locals th) "download_event" with
          | Raised e => Raised e
          | Returned c => Returned (a, b, c)
          end
      end
  end.

(** The [try] block of [_download_rom_async]; an exception of
    [add_to_cache] is caught and logged. *)
Definition download_body (w : World) (th : Thread) (m : Machine) : Machine :=
  let rid := local_str th "rom_id" in
  let target_path := local_str th "target_path" in
  let platform := split_head rid in
  let fname := PathLib.name target_path in
  match build_download_url w (rom_servers m) platform fname with
  | Some download_url =>
      let m := count_transfer m in
      match add_to_cache (config m) (engine_env w) (cache_manager m)
              rid download_url fname (Some platform) with
      | (Returned _, st) =>
          let cache_path := get_cache_path st rid in
          with_cache
            (update_cached_file (linker_strategy m) cache_path target_path st) m
      | (Raised _, st) => with_cache st m
      end
  | None => m
  end.

(** One step of thread [t]; [None] when the thread is blocked, finished
    or absent. *)
Definition step (w : World) (t : nat) (m : Machine) : option Machine :=
  match threads m !! t with
  | None => None
  | Some th =>
      let rid := local_str th "rom_id" in
      match pc th with
      | H_is_cached =>
          if is_cached (cache_manager m) rid
          then Some (goto t th H_mark_accessed m)
          else Some (goto t th H_acquire m)
      | H_mark_accessed =>
          Some (goto t th Done
                  (with_cache
                     (mark_accessed (time_now (engine_env w)) rid (cache_manager m))
                     m))
      | H_acquire =>
          match download_lock m with
          | None => Some (goto t th H_in_lock (with_lock (Some t) m))
          | Some _ => None
          end
      | H_in_lock =>
          match downloading_roms m !! rid with
          | Some e => Some (goto t th (H_wait e) m)
          | None =>
              let e := length (event_flags m) in
              let th' :=
                mkThread H_start_thread
                  (<["download_event" := VEvent e]> (locals th)) in
              Some (with_thread t th'
                      (with_lock None
                         (with_downloading (<[rid := e]> (downloading_roms m))
                            (with_events (event_flags m ++ [false]) m))))
          end
      | H_wait e =>
          match event_flags m !! e with
          | Some true => Some (goto t th Done (with_lock None m))
          | _ => None
          end
      | H_start_thread =>
          match thread_args th with
          | Returned (a, b, c) =>
              let child :=
                mkThread D_download
                  (<["rom_id" := a]>
                     (<["target_path" := b]> (<["download_event" := c]> ∅))) in
              Some (goto t th Done (spawn child m))
          | Raised _ => Some (goto t th H_except_set m)
          end
      | H_except_set =>
          Some (goto t th H_except_acquire
                  (with_events (<[local_event th := true]> (event_flags m)) m))
      | H_except_acquire =>
          match download_lock m with
          | None => Some (goto t th H_except_pop (with_lock (Some t) m))
          | Some _ => None
          end
      | H_except_pop =>
          Some (goto t th Done
                  (with_lock None
                     (with_downloading (delete rid (downloading_roms m)) m)))
      | D_download => Some (goto t th D_finally_set (download_body w th m))
      | D_finally_set =>
          Some (goto t th D_finally_acquire
                  (with_events (<[local_event th := true]> (event_flags m)) m))
      | D_finally_acquire =>
          match download_lock m with
          | None => Some (goto t th D_finally_pop (with_lock (Some t) m))
          | Some _ => None
          end
      | D_finally_pop =>
          Some (goto t th Done
                  (with_lock None
                     (with_downloading (delete rid (downloading_roms m)) m)))
      | Done => None
      end
  end.

(** Run the threads in the order a schedule names them. *)
Fixpoint run (w : World) (schedule : list nat) (m : Machine) : option Machine :=
  match schedule with
  | [] => Some m
  | t :: rest =>
      match step w t m with
      | Some m' => run w rest m'
      | None => None
      end
  end.

(** A call [handle_rom_access(rom_id, symlink_path)] about to start, as
    [ROMAccessHandler.on_accessed] makes it (line 258). *)
Definition call_handle_rom_access (rid symlink_path : string) : Thread :=
  mkThread H_is_cached
    (<["rom_id" := VStr rid]> (<["symlink_path" := VPath symlink_path]> ∅)).

(** An integration at rest with [n] callers for the same ROM. *)
Definition callers (cfg : CacheConfig) (st : Store) (strategy : LinkStrategy)
    (servers : list ROMServer) (rid symlink_path : string) (n : nat) : Machine :=
  mkMachine st cfg strategy servers ∅ [] None
    (replicate n (call_handle_rom_access rid symlink_path)) 0.

End Integration.

(** ** Further operations of the engine ([engine.py], lines 276-310) *)

(** [set_favorite]: an [UPDATE] of column [is_favorite] of one row. *)
Definition set_favorite (rid : string) (fav : bool) (st : Store) : Store :=
  set_db st
    (alter (fun r => mkRow (row_filename r) (row_size_bytes r)
                       (row_last_accessed r) (row_download_time r)
                       (row_priority_score r) fav (row_platform r))
           rid (db st)).

(** The comparison of [ORDER BY last_accessed DESC]. *)
Definition recent_leb (a b : string * Row) : bool :=
  Qle_bool (row_last_accessed b.2) (row_last_accessed a.2).

Definition recent_le (a b : string * Row) : Prop := Is_true (recent_leb a b).

(** The [CacheEntry] built from one row of the result set. *)
Definition entry_of_row (x : string * Row) : CacheEntry :=
  mkCacheEntry x.1 (row_filename x.2) (row_size_bytes x.2)
    (row_last_accessed x.2) (row_download_time x.2)
    (row_priority_score x.2) (row_is_favorite x.2).

(** [list_cached_roms] *)
Definition list_cached_roms (st : Store) : list CacheEntry :=
  entry_of_row <$> merge_sort recent_le (map_to_list (db st)).

(** ** The cleanup endpoint ([api/app.py], lines 121-142) *)



(** ** ROM identifiers ([emulationstation.py], lines 260-263, 356-360) *)

(** [PurePath.stem]: the final component without its suffix. *)
Definition path_stem (p : string) : string :=
  let n := PathLib.name p in
  substring 0 (String.length n - String.length (PathLib.suffix n)) n.

(** [s.replace(' ', '_')] *)
Fixpoint replace_space (s : string) : string :=
  match s with
  | EmptyString => EmptyString
  | String c rest =>
      String (if Ascii.eqb c " " then "_"%char else c) (replace_space rest)
  end.

(** [str.lower] on one ASCII character. *)
Definition lower_char (c : ascii) : ascii :=
  let n := nat_of_ascii c in
  if (65 <=? n)%nat && (n <=? 90)%nat then ascii_of_nat (n + 32) else c.

(** [s.lower()] for ASCII text. *)
Fixpoint lower (s : string) : string :=
  match s with
  | EmptyString => EmptyString
  | String c rest => String (lower_char c) (lower rest)
  end.

(** [_generate_rom_id]: the id under which [_setup_platform_symlinks]
    links a ROM of a platform. *)
Definition generate_rom_id (platform fname : string) : string :=
  let base_name := path_stem fname in
  lower (replace_space (platform ++ "_" ++ base_name)).

(** [ROMAccessHandler._extract_rom_id]: the id [on_accessed] hands to
    [handle_rom_access]. *)
Definition extract_rom_id (file_path : string) : string :=
  path_stem file_path.

(** ** Link strategy ([emulationstation.py], lines 40-53) *)

(** [_detect_best_strategy], from [sys.platform] and the outcomes of the
    two probes. *)
Definition detect_best_strategy (platform : string)
    (can_create_symlinks can_create_junctions : bool)
    : Integration.LinkStrategy :=
  if String.prefix "win" platform then
    if can_create_symlinks then Integration.DEVMODE_SYMLINK
    else if can_create_junctions then Integration.JUNCTION
    else Integration.COPY
  else Integration.SYMLINK.

(** ** The design document's wording, as definitions

    These follow the text of the design document, not the code; the
    theorems below compare the two. *)

Module Spec.

(** [platformPriority.get(platform, 0)] *)
Definition platform_weight (cfg : CacheConfig) (platform : option string) : Z :=
  match platform with
  | Some p => default 0 (platforms_priority cfg !! p)
  | None => 0
  end.

Definition hours_since_access (now : Q) (entry : CacheEntry) : Q :=
  ((now - last_accessed entry) / 3600)%Q.

(** [50 if hoursSinceAccess < 24 else 20 if hoursSinceAccess < 168 else 0] *)
Definition recency_term (now : Q) (entry : CacheEntry) : Z :=
  if Qltb (hours_since_access now entry) 24 then 50
  else if Qltb (hours_since_access now entry) 168 then 20
  else 0.

(** [100 if entry.isFavorite else 0] *)
Definition favorite_term (entry : CacheEntry) : Z :=
  if is_favorite entry then 100 else 0.

(** [10 if sizeBytes < 100MB else -10 if sizeBytes > 5GB else 0] *)
Definition size_term (entry : CacheEntry) : Z :=
  if size_bytes entry <? 100 * 1024 * 1024 then 10
  else if 5 * 1024 ^ 3 <? size_bytes entry then -10
  else 0.

(** The score formula of the design document. *)
Definition priority_score (cfg : CacheConfig) (now : Q) (entry : CacheEntry)
    (platform : option string) : Z :=
  platform_weight cfg platform * 10
  + recency_term now entry + favorite_term entry + size_term entry.

(** [bytesToFree = (targetFreeGB - currentFreeGB) * 2^30], not rounded. *)
Definition bytesToFree (cfg : CacheConfig) (st : Store) (targetFreeGB : Q) : Q :=
  ((targetFreeGB - free_space_gb (get_cache_stats cfg st)) * inject_Z (2 ^ 30))%Q.

(** Steps 3 and 4 of [cleanup]: every candidate that is not a protected
    favorite is removed, until the freed bytes reach the target. *)
Fixpoint evict (cfg : CacheConfig) (to_free : Q)
    (candidates : list (string * Row)) (ls : LoopState) : LoopState :=
  match candidates with
  | [] => ls
  | (rid, row) :: rest =>
      if row_is_favorite row && favorite_protection cfg then
        evict cfg to_free rest ls
      else
        let st := loop_store ls in
        let ls' :=
          mkLoop (removed_roms ls ++ [rid])
                 (freed_bytes ls + row_size_bytes row)
                 (delete_row rid (unlink (get_cache_path st rid) st)) in
        if Qle_bool to_free (inject_Z (freed_bytes ls')) then ls'
        else evict cfg to_free rest ls'
  end.

(** [cleanup(targetFreeGB)] as the design document words it. *)
Definition cleanup (cfg : CacheConfig) (targetFreeGB : Q) (st : Store)
    : list string * Store :=
  let to_free := bytesToFree cfg st targetFreeGB in
  if Qle_bool to_free 0 then ([], st)
  else
    let ls := evict cfg to_free (select_ordered (db st)) (mkLoop [] 0 st) in
    (removed_roms ls, loop_store ls).

(** The invariant of the data model: a record is in the index exactly
    when its blob is on disk, and then the recorded size is the size on
    disk. *)
Definition consistent_at (st : Store) (rid : string) : Prop :=
  match db st !! rid, files st !! get_cache_path st rid with
  | Some row, Some content => row_size_bytes row = Z.of_nat (length content)
  | None, None => True
  | _, _ => False
  end.

Definition consistent (st : Store) : Prop :=
  forall rid, consistent_at st rid.

End Spec.

(** ** Vocabulary of the eviction theorems *)

(** A row the loop of [cleanup_cache] may remove from store [st]: not a
    protected favorite, and its blob file exists. *)
Definition evictable (cfg : CacheConfig) (st : Store) (x : string * Row) : bool :=
  negb (row_is_favorite x.2 && favorite_protection cfg)
  && path_exists st (get_cache_path st x.1).

(** Unlink the blob and delete the record of one id, as the loop does. *)
Definition remove_entry (rid : string) (st : Store) : Store :=
  delete_row rid (unlink (get_cache_path st rid) st).

(** The same for each listed id in turn. *)
Definition remove_entries (ids : list string) (st : Store) : Store :=
  foldl (fun s rid => remove_entry rid s) st ids.

(** Sum of the [size_bytes] column over a list of rows. *)
Definition sum_sizes (l : list (string * Row)) : Z :=
  foldr (fun x acc => row_size_bytes x.2 + acc) 0 l.

(** The shortest prefix of [l] whose sizes, added to [acc], reach
    [to_free]; all of [l] when none does. *)
Fixpoint take_until (to_free acc : Z) (l : list (string * Row))
    : list (string * Row) :=
  match l with
  | [] => []
  | x :: rest =>
      if acc + row_size_bytes x.2 >=? to_free then [x]
      else x :: take_until to_free (acc + row_size_bytes x.2) rest
  end.

(** The rows [cleanup_cache] removes from [st] for a byte target: the
    shortest sufficient prefix of the evictable rows in cursor order. *)
Definition victims_of (cfg : CacheConfig) (to_free : Z) (st : Store)
    : list (string * Row) :=
  take_until to_free 0 (List.filter (evictable cfg st) (select_ordered (db st))).

(** A thread that runs [handle_rom_access]: it stands at one of the
    points of that method and its frame binds no [target_path]. *)
Definition handler_pc (p : Integration.Pc) : bool :=
  match p with
  | Integration.D_download | Integration.D_finally_set
  | Integration.D_finally_acquire | Integration.D_finally_pop => false
  | _ => true
  end.

Definition handler_thread (th : Integration.Thread) : Prop :=
  handler_pc (Integration.pc th) = true
  /\ Integration.locals th !! "target_path" = None.

(** Sum of [size_bytes] over a list of entries. *)
Definition sum_entry_sizes (l : list CacheEntry) : Z :=
  foldr (fun e acc => size_bytes e + acc) 0 l.

(** The URL [_build_download_url] probes on one server. *)
Definition candidate_url (server : Integration.ROMServer)
    (server_path fname : string) : string :=
  Integration.rstrip_slash (Integration.base_url server)
    ++ "/" ++ server_path ++ "/" ++ fname.

(** The server maps the platform and its probe does not answer 200 (or it
    does not map the platform at all). *)
Definition no_luck (w : Integration.World) (platform fname : string)
    (server : Integration.ROMServer) : Prop :=
  forall server_path,
    Integration.platform_paths server !! platform = Some server_path ->
    Integration.requests_head w (candidate_url server server_path fname)
    <> Some 200.


(** The points at which a thread asks for [download_lock]. *)
Definition acquire_pc (p : Integration.Pc) : bool :=
  match p with
  | Integration.H_acquire | Integration.H_except_acquire
  | Integration.D_finally_acquire => true
  | _ => false
  end.

(** A path that does not lie directly in the cache directory. *)
Definition outside_cache (st : Store) (p : string) : Prop :=
  forall x, p <> PathLib.join (cache_dir st) x.

(** ** Sample data *)

Module Samples.

(** Sample configuration whose platform table has the empty string as a
    key. *)
Definition cfg_blank_platform : CacheConfig :=
  mkCacheConfig 50 (9 # 10) 5 true (<["" := 5]> (<["nes" := 10]> ∅)).

Definition entry_small : CacheEntry :=
  mkCacheEntry "nes_mario" "mario.nes" 40960 1000 1000 0 false.

(** The default table of [CacheConfig.__post_init__]. *)
Definition default_priority : gmap string Z :=
  list_to_map
    [("nes", 10); ("snes", 10); ("gb", 10); ("gbc", 10); ("gba", 9);
     ("genesis", 8); ("n64", 7); ("psx", 6); ("ps2", 5); ("gamecube", 4);
     ("wii", 3); ("xbox", 2); ("ps3", 1); ("xbox360", 1)].

(** [CacheConfig()] with its default values. *)
Definition cfg_default : CacheConfig :=
  mkCacheConfig 50 (9 # 10) 5 true default_priority.

(** A blob on disk that no index record describes. *)
Definition st_orphan : Store :=
  mkStore "/cache" ∅ (<["/cache/nes_mario" := [x4e; x45; x53]]> ∅).

(** An index record whose blob is not on disk. *)
Definition st_dangling : Store :=
  mkStore "/cache"
    (<["nes_mario" := mkRow "mario.nes" 40960 1000 1000 160 false (Some "nes")]> ∅)
    ∅.

(** Three cached ROMs with their blobs: a favorite with the lowest
    score, and two others that tie on the score. *)
Definition st_three : Store :=
  mkStore "/cache"
    (<["nes_zelda" := mkRow "zelda.nes" 131072 2000 900 160 false (Some "nes")]>
       (<["nes_mario" := mkRow "mario.nes" 40960 1000 1000 160 false (Some "nes")]>
          (<["psx_ff7" := mkRow "ff7.bin" 3000000 500 500 110 true (Some "psx")]> ∅)))
    (<["/cache/nes_zelda" := [x4e; x45; x53]]>
       (<["/cache/nes_mario" := [x4e; x45; x53]]>
          (<["/cache/psx_ff7" := [x50; x53]]> ∅))).

(** [st_three] after the blob of [nes_mario] was lost. *)
Definition st_three_lost : Store :=
  mkStore "/cache" (db st_three) (delete "/cache/nes_mario" (files st_three)).

(** A configuration whose capacity is a tenth of a gigabyte. *)
Definition cfg_small : CacheConfig :=
  mkCacheConfig (1 # 10) (7 # 10) (1 # 100) true default_priority.

(** A free-space target for [cfg_small] and [st_three] that asks for
    30000 bytes. *)
Definition target_30000 : Q := ((1 # 10) - (3142032 # 1073741824))%Q.

(** A fresh cache directory. *)
Definition st_empty : Store := mkStore "/cache" ∅ ∅.

Definition url_mario : string := "http://server/roms/nes/mario.nes".

(** A complete three-byte answer that carries no [content-length]
    header (a chunked transfer). *)
Definition resp_no_length : Response :=
  mkResponse true NoLength [[x4e; x45]; [x53]] false.

(** An answer advertising three bytes whose stream breaks after two. *)
Definition resp_broken : Response :=
  mkResponse true (Length 3) [[x4e; x45]] true.

Definition env_no_length : Env := mkEnv (fun _ => Some resp_no_length) 1000 1001.

Definition env_broken : Env := mkEnv (fun _ => Some resp_broken) 1000 1001.

(** A server that maps [nes] and answers every probe with 200. *)
Definition server_home : Integration.ROMServer :=
  Integration.mkROMServer "home_server" "http://server/roms/"
    (<["nes" := "nes"]> ∅).

Definition resp_mario : Response :=
  mkResponse true (Length 3) [[x4e; x45; x53]] false.

Definition world_ok : Integration.World :=
  Integration.mkWorld (fun _ => Some 200) (mkEnv (fun _ => Some resp_mario) 1000 1001).

(** The exposed path the watcher reports for the ROM. *)
Definition exposed_mario : string := "/roms/nes/mario.nes".

(** A machine whose only thread already runs [_download_rom_async] with
    its three arguments bound. *)
Definition machine_downloading : Integration.Machine :=
  Integration.mkMachine st_empty cfg_default Integration.SYMLINK [server_home]
    (<["nes_mario" := O]> ∅) [false] None
    [Integration.mkThread Integration.D_download
       (<["rom_id" := Integration.VStr "nes_mario"]>
          (<["target_path" := Integration.VPath exposed_mario]>
             (<["download_event" := Integration.VEvent O]> ∅)))]
    0.

(** An interleaving of two callers in which the second joins the handle
    the first has registered. *)
Definition schedule_join : list nat :=
  [0; 0; 0; 1; 1; 1; 0; 0; 1; 0; 0]%nat.

(** The machine [schedule_join] leads to from two callers on the empty
    cache. *)
Definition machine_joined : Integration.Machine :=
  Integration.mkMachine st_empty cfg_default Integration.SYMLINK [server_home]
    ∅ [true] None
    [Integration.mkThread Integration.Done
       (<["download_event" := Integration.VEvent O]>
          (Integration.locals
             (Integration.call_handle_rom_access "nes_mario" exposed_mario)));
     Integration.mkThread Integration.Done
       (Integration.locals
          (Integration.call_handle_rom_access "nes_mario" exposed_mario))]
    0.

(** A free-space target for [cfg_small] and [st_three] that asks for half
    a byte. *)
Definition target_half_byte : Q := ((1 # 10) - (6344063 # 2147483648))%Q.




(** No server answers. *)
Definition env_down : Env := mkEnv (fun _ => None) 1000 1001.

Definition env_mario : Env := mkEnv (fun _ => Some resp_mario) 1000 1001.

(** One caller for [nes_mario] while the ROM is cached and another
    thread, here thread 1, holds the lock. *)
Definition machine_hit : Integration.Machine :=
  Integration.mkMachine st_three cfg_default Integration.SYMLINK [server_home]
    ∅ [] (Some 1%nat)
    [Integration.call_handle_rom_access "nes_mario" exposed_mario;
     Integration.mkThread Integration.H_in_lock
       (Integration.locals (Integration.call_handle_rom_access "psx_crash" "/roms/psx/crash.bin"))]
    0.

(** A caller for [nes_mario] arrives while the handle of a download of
    that ROM is registered and not yet signalled; thread 1 asks for
    another ROM. *)
Definition machine_inflight : Integration.Machine :=
  Integration.mkMachine st_empty cfg_default Integration.SYMLINK [server_home]
    (<["nes_mario" := O]> ∅) [false] None
    [Integration.mkThread Integration.H_acquire
       (Integration.locals (Integration.call_handle_rom_access "nes_mario" exposed_mario));
     Integration.mkThread Integration.H_acquire
       (Integration.locals (Integration.call_handle_rom_access "psx_crash" "/roms/psx/crash.bin"))]
    0.

(** Under the copy strategy the exposed placeholder of [nes_mario] is an
    empty regular file; a downloader for the ROM is about to run. *)
Definition cache_manager_copy : Store :=
  mkStore "/cache" ∅ (<[exposed_mario := []]> ∅).

Definition machine_copy : Integration.Machine :=
  Integration.mkMachine cache_manager_copy
    cfg_default Integration.COPY [server_home]
    (<["nes_mario" := O]> ∅) [false] None
    [Integration.mkThread Integration.D_download
       (<["rom_id" := Integration.VStr "nes_mario"]>
          (<["target_path" := Integration.VPath exposed_mario]>
             (<["download_event" := Integration.VEvent O]> ∅)))]
    0.

(** One cached ROM whose record gives the size of its blob. *)
Definition st_one : Store :=
  mkStore "/cache"
    (<["nes_mario" := mkRow "mario.nes" 3 1000 1000 160 false (Some "nes")]> ∅)
    (<["/cache/nes_mario" := [x4e; x45; x53]]> ∅).

(** The two entries of [test_priority_scoring], at time 3000000: a
    favorite touched an hour ago and a 650 megabyte ROM touched thirty
    days ago. *)
Definition entry_recent_fav : CacheEntry :=
  mkCacheEntry "recent_fav" "recent.nes" 40960 2996400 2992800 0 true.

Definition entry_old_large : CacheEntry :=
  mkCacheEntry "old_large" "old.bin" 681574400 408000 408000 0 false.

End Samples.

(** * Properties *)

(** ** Numbers *)

Section NumFacts.

Lemma quot_nonpos_iff (n d : Z) : 0 < d -> (Z.quot n d <= 0 <-> n < d).
Proof.
  intros Hd. split.
  - intros Hq. destruct (Z.lt_ge_cases n d) as [H|H]; [exact H|].
    assert (1 <= Z.quot n d); [|lia].
    apply Z.quot_le_lower_bound; lia.
  - intros Hlt. destruct (Z.lt_ge_cases n 0) as [Hneg|Hpos].
    + rewrite <- (Z.opp_involutive n), Z.quot_opp_l by lia.
      assert (0 <= Z.quot (- n) d) by (apply Z.quot_pos; lia). lia.
    + rewrite Z.quot_small; lia.
Qed.

(** [int(x) <= 0] exactly when [x < 1]. *)
Lemma py_int_nonpos_iff (x : Q) : py_int x <= 0 <-> (x < 1)%Q.
Proof.
  unfold py_int. rewrite quot_nonpos_iff by apply Pos2Z.is_pos.
  unfold Qlt. cbn [Qnum Qden]. lia.
Qed.

End NumFacts.

(** ** Priority score *)

Section PriorityScore.

Variable cfg : CacheConfig.

Import Samples.

Example score_nes :
  calculate_priority_score cfg_blank_platform 1001 entry_small (Some "nes") = 160.
Proof. reflexivity. Qed.

Example score_blank :
  calculate_priority_score cfg_blank_platform 1001 entry_small (Some "") = 60.
Proof. reflexivity. Qed.

Example spec_score_blank :
  Spec.priority_score cfg_blank_platform 1001 entry_small (Some "") = 110.
Proof. reflexivity. Qed.

(** C5, as stated, fails: for the platform [""] present in the platform
    table the code adds nothing where the formula adds the weight times
    ten. *)
Lemma C5_counterexample :
  calculate_priority_score cfg_blank_platform 1001 entry_small (Some "")
  <> Spec.priority_score cfg_blank_platform 1001 entry_small (Some "").
Proof. vm_compute. discriminate. Qed.

Lemma score_unfold (now : Q) (entry : CacheEntry) (platform : option string) :
  calculate_priority_score cfg now entry platform =
    (if truthy platform then Spec.platform_weight cfg platform else 0) * 10
    + Spec.recency_term now entry
    + Spec.favorite_term entry
    + Spec.size_term entry.
Proof.
  unfold calculate_priority_score, Spec.recency_term, Spec.favorite_term,
    Spec.size_term, Spec.hours_since_access, Spec.platform_weight.
  change (5 * GiB) with (5 * 1024 ^ 3).
  rewrite Z.gtb_ltb.
  destruct platform as [p|]; simpl truthy.
  - destruct (negb (p =? "")%string); destruct (platforms_priority cfg !! p);
      simpl default;
      repeat match goal with |- context [if ?b then _ else _] => destruct b end;
      lia.
  - repeat match goal with |- context [if ?b then _ else _] => destruct b end;
      lia.
Qed.

(** C5, amended: the score is the formula of the design document, with
    the platform term counted only for a platform that is neither absent
    nor the empty string. *)
Theorem C5_priority_score (now : Q) (entry : CacheEntry) (platform : option string) :
  calculate_priority_score cfg now entry platform =
    (if truthy platform then Spec.platform_weight cfg platform else 0) * 10
    + Spec.recency_term now entry
    + Spec.favorite_term entry
    + Spec.size_term entry.
Proof. apply score_unfold. Qed.

(** With a platform that is a non-empty string, or none, the code and
    the formula agree. *)
Lemma score_matches_formula (now : Q) (entry : CacheEntry) (platform : option string) :
  platform <> Some "" ->
  calculate_priority_score cfg now entry platform
  = Spec.priority_score cfg now entry platform.
Proof.
  intros Hp. rewrite score_unfold. unfold Spec.priority_score.
  destruct platform as [p|]; simpl; [|reflexivity].
  destruct (String.eqb_spec p ""); [congruence|reflexivity].
Qed.

End PriorityScore.

(** ** Lookup *)

Section Lookup.

Import Samples.

Lemma path_exists_true (st : Store) (p : string) :
  path_exists st p = true <-> is_Some (files st !! p).
Proof. unfold path_exists. apply bool_decide_eq_true. Qed.

Lemma path_exists_false (st : Store) (p : string) :
  path_exists st p = false <-> files st !! p = None.
Proof.
  unfold path_exists. rewrite bool_decide_eq_false.
  rewrite <- eq_None_not_Some. reflexivity.
Qed.

Example is_cached_orphan : is_cached st_orphan "nes_mario" = true.
Proof. reflexivity. Qed.

Example is_cached_dangling : is_cached st_dangling "nes_mario" = false.
Proof. reflexivity. Qed.

(** C6, as stated, fails: with a blob on disk and no index record
    [is_cached] answers true. *)
Lemma C6_counterexample :
  ~ (is_cached st_orphan "nes_mario" = true
     <-> is_Some (db st_orphan !! "nes_mario")).
Proof.
  intros [H _]. specialize (H eq_refl).
  destruct H as [row H]. vm_compute in H. discriminate.
Qed.

(** C6, amended: [is_cached] answers true exactly when a file exists at
    the blob path of the id, whatever the index holds. *)
Theorem C6_is_cached (st : Store) (rid : string) :
  (is_cached st rid = true <-> is_Some (files st !! get_cache_path st rid))
  /\ (forall d, is_cached (set_db st d) rid = is_cached st rid).
Proof.
  split.
  - unfold is_cached, get_cache_path. apply path_exists_true.
  - intros d. reflexivity.
Qed.

End Lookup.

(** ** Paths and the primitive store updates *)

Section StoreFacts.

Lemma append_inj_r (d a b : string) :
  (d ++ a)%string = (d ++ b)%string -> a = b.
Proof.
  induction d as [|c d IH]; simpl; [tauto|].
  intros H. injection H as H. auto.
Qed.

Lemma join_inj (d a b : string) : PathLib.join d a = PathLib.join d b -> a = b.
Proof.
  unfold PathLib.join. intros H.
  apply append_inj_r in H. apply append_inj_r in H. exact H.
Qed.

Lemma get_cache_path_inj (st : Store) (a b : string) :
  get_cache_path st a = get_cache_path st b -> a = b.
Proof. apply join_inj. Qed.

Lemma get_cache_path_dir (st st' : Store) (rid : string) :
  cache_dir st' = cache_dir st -> get_cache_path st' rid = get_cache_path st rid.
Proof. unfold get_cache_path. intros ->. reflexivity. Qed.

Lemma remove_entry_dir rid st : cache_dir (remove_entry rid st) = cache_dir st.
Proof. reflexivity. Qed.

Lemma remove_entry_db rid st : db (remove_entry rid st) = delete rid (db st).
Proof. reflexivity. Qed.

Lemma remove_entry_files rid st :
  files (remove_entry rid st) = delete (get_cache_path st rid) (files st).
Proof. reflexivity. Qed.

Lemma remove_entries_cons rid ids st :
  remove_entries (rid :: ids) st = remove_entries ids (remove_entry rid st).
Proof. reflexivity. Qed.

Lemma remove_entries_dir ids : forall st,
  cache_dir (remove_entries ids st) = cache_dir st.
Proof.
  induction ids as [|rid ids IH]; intros st; [reflexivity|].
  rewrite remove_entries_cons, IH. reflexivity.
Qed.

Lemma remove_entries_db ids : forall st k,
  db (remove_entries ids st) !! k =
    if bool_decide (k ∈ ids) then None else db st !! k.
Proof.
  induction ids as [|rid ids IH]; intros st k.
  - rewrite bool_decide_eq_false_2; [reflexivity|]. apply not_elem_of_nil.
  - rewrite remove_entries_cons, IH, remove_entry_db.
    destruct (decide (k ∈ ids)) as [Hin|Hin].
    + rewrite !bool_decide_eq_true_2; [reflexivity| |assumption].
      apply elem_of_cons. auto.
    + rewrite (bool_decide_eq_false_2 _ Hin).
      destruct (decide (k = rid)) as [->|Hne].
      * rewrite lookup_delete_eq.
        rewrite bool_decide_eq_true_2; [reflexivity|]. apply elem_of_cons; auto.
      * rewrite lookup_delete_ne by (intros E; apply Hne; symmetry; exact E).
        rewrite bool_decide_eq_false_2; [reflexivity|].
        rewrite elem_of_cons. tauto.
Qed.

Lemma remove_entries_files ids : forall st p,
  files (remove_entries ids st) !! p =
    if bool_decide (p ∈ get_cache_path st <$> ids) then None else files st !! p.
Proof.
  induction ids as [|rid ids IH]; intros st p.
  - rewrite bool_decide_eq_false_2; [reflexivity|]. apply not_elem_of_nil.
  - rewrite remove_entries_cons, IH, remove_entry_files.
    assert (Hmap : get_cache_path (remove_entry rid st) <$> ids
                   = get_cache_path st <$> ids).
    { apply list_fmap_ext. intros _ x _. reflexivity. }
    rewrite Hmap, fmap_cons.
    destruct (decide (p ∈ get_cache_path st <$> ids)) as [Hin|Hin].
    + rewrite !bool_decide_eq_true_2; [reflexivity| |assumption].
      apply elem_of_cons. auto.
    + rewrite (bool_decide_eq_false_2 _ Hin).
      destruct (decide (p = get_cache_path st rid)) as [->|Hne].
      * rewrite lookup_delete_eq.
        rewrite bool_decide_eq_true_2; [reflexivity|]. apply elem_of_cons; auto.
      * rewrite lookup_delete_ne by (intros E; apply Hne; symmetry; exact E).
        rewrite bool_decide_eq_false_2; [reflexivity|].
        rewrite elem_of_cons. tauto.
Qed.

Lemma remove_entries_app ids1 ids2 st :
  remove_entries (ids1 ++ ids2) st = remove_entries ids2 (remove_entries ids1 st).
Proof. unfold remove_entries. apply foldl_app. Qed.

End StoreFacts.

(** ** Order of the cursor *)

Section CursorOrder.

Lemma order_le_iff (a b : string * Row) :
  order_le a b <->
  row_priority_score a.2 < row_priority_score b.2
  \/ (row_priority_score a.2 = row_priority_score b.2
      /\ (row_last_accessed a.2 <= row_last_accessed b.2)%Q).
Proof.
  unfold order_le, order_leb.
  rewrite Is_true_true, orb_true_iff, andb_true_iff.
  rewrite Z.ltb_lt, Z.eqb_eq, Qle_bool_iff. reflexivity.
Qed.

#[local] Instance order_le_total : Total order_le.
Proof.
  intros a b. rewrite !order_le_iff.
  destruct (Z.lt_trichotomy (row_priority_score a.2) (row_priority_score b.2))
    as [H|[H|H]]; [auto| |auto].
  destruct (Qlt_le_dec (row_last_accessed a.2) (row_last_accessed b.2)) as [L|L].
  - left. right. split; [exact H|]. apply Qlt_le_weak. exact L.
  - right. right. split; [symmetry; exact H|exact L].
Qed.

#[local] Instance order_le_trans : Transitive order_le.
Proof.
  intros a b c. rewrite !order_le_iff.
  intros [H1|[H1 L1]] [H2|[H2 L2]]; try (left; lia).
  right. split; [lia|]. eapply Qle_trans; eassumption.
Qed.


Lemma select_ordered_perm (d : gmap string Row) :
  select_ordered d ≡ₚ map_to_list d.
Proof. unfold select_ordered. apply merge_sort_Permutation. Qed.

Lemma select_ordered_nodup (d : gmap string Row) :
  NoDup (select_ordered d).*1.
Proof.
  rewrite select_ordered_perm. apply NoDup_fst_map_to_list.
Qed.

Lemma select_ordered_lookup (d : gmap string Row) (rid : string) (row : Row) :
  (rid, row) ∈ select_ordered d <-> d !! rid = Some row.
Proof.
  rewrite select_ordered_perm. apply elem_of_map_to_list.
Qed.

End CursorOrder.

(** ** The eviction loop *)

Section EvictionLoop.

Variable cfg : CacheConfig.

Lemma evictable_remove_entry (st : Store) (rid : string) (x : string * Row) :
  x.1 <> rid ->
  evictable cfg (remove_entry rid st) x = evictable cfg st x.
Proof.
  intros Hne. unfold evictable. f_equal.
  unfold path_exists. apply bool_decide_ext.
  rewrite remove_entry_files.
  rewrite (get_cache_path_dir st (remove_entry rid st)) by reflexivity.
  rewrite lookup_delete_ne; [reflexivity|].
  intros E. apply get_cache_path_inj in E. congruence.
Qed.

Lemma filter_evictable_remove_entry (st : Store) (rid : string)
    (l : list (string * Row)) :
  rid ∉ l.*1 ->
  List.filter (evictable cfg (remove_entry rid st)) l
  = List.filter (evictable cfg st) l.
Proof.
  intros Hnot. apply List.filter_ext_in. intros x Hx.
  apply evictable_remove_entry. intros E. apply Hnot.
  rewrite <- E. apply list_elem_of_fmap_2. apply list_elem_of_In. exact Hx.
Qed.

(** The loop removes exactly the shortest sufficient prefix of the
    evictable rows of its cursor. *)
Lemma cleanup_loop_exact (to_free : Z) (cursor : list (string * Row)) :
  NoDup cursor.*1 ->
  forall ls,
    cleanup_loop cfg to_free cursor ls =
      let victims :=
        take_until to_free (freed_bytes ls)
          (List.filter (evictable cfg (loop_store ls)) cursor) in
      mkLoop (removed_roms ls ++ victims.*1)
             (freed_bytes ls + sum_sizes victims)
             (remove_entries victims.*1 (loop_store ls)).
Proof.
  induction cursor as [|[rid row] rest IH]; intros Hnd ls.
  - cbn. rewrite app_nil_r, Z.add_0_r. destruct ls; reflexivity.
  - rewrite fmap_cons in Hnd. apply NoDup_cons in Hnd as [Hnotin Hnd].
    cbn [fst] in Hnotin. specialize (IH Hnd). cbv zeta in IH.
    assert (Hev : evictable cfg (loop_store ls) (rid, row)
                  = negb (row_is_favorite row && favorite_protection cfg)
                    && path_exists (loop_store ls)
                         (get_cache_path (loop_store ls) rid))
      by reflexivity.
    cbn [cleanup_loop List.filter]. cbv zeta. rewrite Hev. clear Hev.
    destruct (row_is_favorite row && favorite_protection cfg) eqn:Hprot;
      cbn [negb andb].
    + apply IH.
    + destruct (path_exists (loop_store ls) (get_cache_path (loop_store ls) rid))
        eqn:Hex.
      * cbn [take_until snd freed_bytes].
        destruct (freed_bytes ls + row_size_bytes row >=? to_free) eqn:Hreach.
        -- cbn. rewrite Z.add_0_r. reflexivity.
        -- rewrite IH. cbn [freed_bytes loop_store removed_roms].
           fold (remove_entry rid (loop_store ls)).
           rewrite filter_evictable_remove_entry by exact Hnotin.
           rewrite !fmap_cons, remove_entries_cons.
           cbn [fst sum_sizes foldr snd].
           rewrite <- app_assoc. cbn [app].
           fold (sum_sizes (take_until to_free
                   (freed_bytes ls + row_size_bytes row)
                   (List.filter (evictable cfg (loop_store ls)) rest))).
           rewrite Z.add_assoc. reflexivity.
      * apply IH.
Qed.

(** What [take_until] selects. *)
Lemma take_until_prefix (to_free : Z) (l : list (string * Row)) : forall acc,
  exists rest,
    l = (take_until to_free acc l ++ rest)%list
    /\ (forall p q, take_until to_free acc l = (p ++ q)%list -> q <> [] ->
          acc + sum_sizes p < to_free \/ p = [])
    /\ (rest <> [] -> to_free <= acc + sum_sizes (take_until to_free acc l)).
Proof.
  induction l as [|x l IH]; intros acc; simpl.
  - exists []. split; [reflexivity|]. split; [|congruence].
    intros p q H. destruct p; [auto|discriminate].
  - destruct (acc + row_size_bytes x.2 >=? to_free) eqn:Hreach.
    + exists l. split; [reflexivity|]. split.
      * intros p q H Hq. destruct p as [|y p]; [auto|].
        injection H as _ H. destruct p; [destruct q; [congruence|discriminate]|discriminate].
      * intros _. simpl. lia.
    + destruct (IH (acc + row_size_bytes x.2)) as (rest & Heq & Hmin & Hstop).
      exists rest. split; [simpl; congruence|]. split.
      * intros p q H Hq. destruct p as [|y p]; [auto|]. left.
        injection H as <- H. simpl.
        destruct (Hmin p q H Hq) as [Hlt| ->]; simpl; lia.
      * intros Hrest. specialize (Hstop Hrest). simpl. lia.
Qed.

End EvictionLoop.

(** ** Eviction: [cleanup_cache] *)

Section Cleanup.

Import Samples.

Variable cfg : CacheConfig.

Lemma cleanup_run_exact (target : option Q) (st : Store) :
  cleanup_run cfg target st =
    let to_free := bytes_to_free cfg st (default (min_free_space_gb cfg) target) in
    if to_free <=? 0 then mkLoop [] 0 st
    else mkLoop (victims_of cfg to_free st).*1
                (sum_sizes (victims_of cfg to_free st))
                (remove_entries (victims_of cfg to_free st).*1 st).
Proof.
  unfold cleanup_run. cbv zeta.
  destruct (bytes_to_free cfg st (default (min_free_space_gb cfg) target) <=? 0);
    [reflexivity|].
  rewrite cleanup_loop_exact by apply select_ordered_nodup.
  reflexivity.
Qed.

Lemma take_until_subseteq (to_free acc : Z) (l : list (string * Row)) (x : string * Row) :
  x ∈ take_until to_free acc l -> x ∈ l.
Proof.
  destruct (take_until_prefix to_free l acc) as (rest & Heq & _).
  intros Hx. rewrite Heq. apply elem_of_app. auto.
Qed.

(** Every removed row was in the index, was not a protected favorite and
    had its blob on disk. *)
Lemma victims_of_spec (to_free : Z) (st : Store) (x : string * Row) :
  x ∈ victims_of cfg to_free st ->
  db st !! x.1 = Some x.2
  /\ row_is_favorite x.2 && favorite_protection cfg = false
  /\ is_Some (files st !! get_cache_path st x.1).
Proof.
  intros Hx. apply take_until_subseteq in Hx.
  apply list_elem_of_In, List.filter_In in Hx as [Hin Hev].
  apply list_elem_of_In in Hin. destruct x as [rid row].
  apply select_ordered_lookup in Hin.
  unfold evictable in Hev. apply andb_true_iff in Hev as [Hp He].
  apply negb_true_iff in Hp. apply path_exists_true in He.
  auto.
Qed.

Lemma victims_of_id (to_free : Z) (st : Store) (rid : string) :
  rid ∈ (victims_of cfg to_free st).*1 ->
  exists row, (rid, row) ∈ victims_of cfg to_free st.
Proof.
  intros H. apply list_elem_of_fmap in H as ([r row] & -> & H). eauto.
Qed.

Lemma victims_of_path (to_free : Z) (st : Store) (rid : string) :
  get_cache_path st rid ∈ get_cache_path st <$> (victims_of cfg to_free st).*1 ->
  rid ∈ (victims_of cfg to_free st).*1.
Proof.
  intros H. apply list_elem_of_fmap in H as (r & E & H).
  apply get_cache_path_inj in E. congruence.
Qed.

End Cleanup.

Section CleanupClaims.

Import Samples.



Example cleanup_three :
  (cleanup_cache cfg_small (Some (1 # 10)%Q) st_three).1
  = ["nes_mario"; "nes_zelda"].
Proof. vm_compute. reflexivity. Qed.

Example cleanup_three_stops :
  (cleanup_cache cfg_small (Some target_30000) st_three).1 = ["nes_mario"].
Proof. vm_compute. reflexivity. Qed.

(** The byte target is truncated: asked for half a byte, the code does
    nothing where the design document's procedure starts evicting. *)
Example cleanup_half_byte :
  (Spec.bytesToFree cfg_small st_three target_half_byte == 1 # 2)%Q
  /\ bytes_to_free cfg_small st_three target_half_byte = 0
  /\ (cleanup_cache cfg_small (Some target_half_byte) st_three).1 = []
  /\ (Spec.cleanup cfg_small target_half_byte st_three).1 = ["nes_mario"].
Proof. vm_compute. auto. Qed.

(** The code's integer target is at most 0 exactly when the exact
    target is below one byte. *)
Lemma bytes_to_free_nonpos_iff (cfg : CacheConfig) (st : Store) (target : Q) :
  bytes_to_free cfg st target <= 0 <-> (Spec.bytesToFree cfg st target < 1)%Q.
Proof. unfold bytes_to_free. apply py_int_nonpos_iff. Qed.






Example cleanup_three_lost :
  let ls := cleanup_run cfg_small (Some (1 # 10)%Q) st_three_lost in
  removed_roms ls = ["nes_zelda"] /\ freed_bytes ls = 131072.
Proof. vm_compute. auto. Qed.

(** C10: an index record whose blob file is missing is left as it is by
    [cleanup_cache]: the record stays, its id is not reported, and the
    freed-bytes total is the sum of the sizes of the removed rows, each of
    which had its blob on disk, lost it and lost its record. *)
Theorem C10_missing_blob_untouched (cfg : CacheConfig) (target : option Q)
    (st : Store) (rid : string) (row : Row) :
  db st !! rid = Some row ->
  files st !! get_cache_path st rid = None ->
  let ls := cleanup_run cfg target st in
  db (loop_store ls) !! rid = Some row
  /\ (rid ∉ removed_roms ls)
  /\ exists victims,
       removed_roms ls = victims.*1
       /\ freed_bytes ls = sum_sizes victims
       /\ (rid ∉ victims.*1)
       /\ forall x, x ∈ victims ->
            db st !! x.1 = Some x.2
            /\ is_Some (files st !! get_cache_path st x.1)
            /\ files (loop_store ls) !! get_cache_path st x.1 = None
            /\ db (loop_store ls) !! x.1 = None.
Proof.
  intros Hrow Hmiss. cbv zeta. rewrite cleanup_run_exact. cbv zeta.
  destruct (bytes_to_free cfg st (default (min_free_space_gb cfg) target) <=? 0).
  { cbn [loop_store removed_roms freed_bytes].
    split; [exact Hrow|]. split; [apply not_elem_of_nil|].
    exists []. split; [reflexivity|]. split; [reflexivity|].
    split; [apply not_elem_of_nil|]. intros x Hx. inversion Hx. }
  set (to_free := bytes_to_free cfg st (default (min_free_space_gb cfg) target)).
  cbn [removed_roms loop_store freed_bytes].
  assert (Hnot : rid ∉ (victims_of cfg to_free st).*1).
  { intros Hin. apply victims_of_id in Hin as [row' Hin].
    apply victims_of_spec in Hin as (_ & _ & [c Hc]). cbn in Hc. congruence. }
  split.
  { rewrite remove_entries_db, bool_decide_eq_false_2 by exact Hnot. exact Hrow. }
  split; [exact Hnot|].
  exists (victims_of cfg to_free st).
  split; [reflexivity|]. split; [reflexivity|]. split; [exact Hnot|].
  intros x Hx. destruct (victims_of_spec cfg to_free st x Hx) as (Hdb & _ & Hfile).
  assert (Hid : x.1 ∈ (victims_of cfg to_free st).*1)
    by (apply list_elem_of_fmap_2; exact Hx).
  split; [exact Hdb|]. split; [exact Hfile|]. split.
  - rewrite remove_entries_files, bool_decide_eq_true_2; [reflexivity|].
    apply list_elem_of_fmap_2. exact Hid.
  - rewrite remove_entries_db, bool_decide_eq_true_2; [reflexivity|exact Hid].
Qed.

(** C10 at [st_three_lost]: the record of [nes_mario], whose blob is
    gone, stays while [nes_zelda] is evicted. *)
Lemma C10_missing_blob_untouched_witness :
  let ls := cleanup_run cfg_small (Some (1 # 10)%Q) st_three_lost in
  db (loop_store ls) !! "nes_mario"
    = Some (mkRow "mario.nes" 40960 1000 1000 160 false (Some "nes"))
  /\ ("nes_mario" ∉ removed_roms ls)
  /\ exists victims,
       removed_roms ls = victims.*1
       /\ freed_bytes ls = sum_sizes victims
       /\ ("nes_mario" ∉ victims.*1)
       /\ forall x, x ∈ victims ->
            db st_three_lost !! x.1 = Some x.2
            /\ is_Some (files st_three_lost !! get_cache_path st_three_lost x.1)
            /\ files (loop_store ls) !! get_cache_path st_three_lost x.1 = None
            /\ db (loop_store ls) !! x.1 = None.
Proof.
  apply (C10_missing_blob_untouched cfg_small (Some (1 # 10)%Q) st_three_lost
           "nes_mario").
  - vm_compute. reflexivity.
  - vm_compute. reflexivity.
Defined.

End CleanupClaims.

(** ** Ingestion: [add_to_cache] *)

Section Ingestion.

Import Samples.

Lemma cleanup_cache_dir (cfg : CacheConfig) (target : option Q) (st : Store) :
  cache_dir (cleanup_cache cfg target st).2 = cache_dir st.
Proof.
  unfold cleanup_cache. rewrite cleanup_run_exact. cbv zeta.
  destruct (_ <=? 0); cbn [snd loop_store]; [reflexivity|].
  apply remove_entries_dir.
Qed.

Lemma rename_written (tmp dst : string) (content : blob) (st : Store) :
  files (rename tmp dst (write_file tmp content st)) !! dst = Some content.
Proof.
  unfold rename, write_file. cbn [files set_files].
  rewrite lookup_insert_eq. cbn [files set_files].
  apply lookup_insert_eq.
Qed.

Lemma ensure_space_dir (cfg : CacheConfig) (n : Z) (fname : string) (st : Store) :
  cache_dir (ensure_space cfg n fname st).2 = cache_dir st.
Proof.
  unfold ensure_space.
  destruct (Qgtb (inject_Z n) (available_space cfg st)); [|reflexivity].
  destruct (Qgtb _ _); cbn [snd]; apply cleanup_cache_dir.
Qed.

Lemma store_download_success (cfg : CacheConfig) (env : Env) (st st' : Store)
    (rid cache_path fname : string) (platform : option string)
    (resp : Response) (n : Z) (b : bool) :
  store_download cfg env st rid cache_path fname platform resp n
    = (Returned b, st') ->
  cache_dir st' = cache_dir st
  /\ files st' !! cache_path = Some (concat (chunks resp))
  /\ exists row, db st' !! rid = Some row /\ row_size_bytes row = n.
Proof.
  unfold store_download. cbv zeta.
  destruct (stream_breaks resp); [discriminate|].
  intros H. injection H as _ <-.
  split.
  { cbn [insert_or_replace set_db cache_dir]. unfold rename.
    destruct (files _ !! _); reflexivity. }
  split.
  { cbn [insert_or_replace set_db files]. apply rename_written. }
  eexists. split; [apply lookup_insert_eq|reflexivity].
Qed.

(** What a successful [add_to_cache] leaves behind: the blob holds the
    bytes received and the record holds the advertised length. *)
Lemma add_to_cache_success (cfg : CacheConfig) (env : Env) (st st' : Store)
    (rid url fname : string) (platform : option string) (b : bool) :
  add_to_cache cfg env st rid url fname platform = (Returned b, st') ->
  exists resp n row,
    requests_get env url = Some resp
    /\ header_int (content_length resp) = Returned n
    /\ is_cached st' rid = true
    /\ db st' !! rid = Some row
    /\ row_size_bytes row = n
    /\ files st' !! get_cache_path st' rid = Some (concat (chunks resp)).
Proof.
  unfold add_to_cache. cbv zeta.
  set (st0 := if needs_cleanup cfg st then (cleanup_cache cfg None st).2 else st).
  unfold add_to_cache_try. cbv zeta.
  destruct (requests_get env url) as [resp|]; [|discriminate].
  destruct (status_ok resp); cbn [negb]; [|discriminate].
  destruct (header_int (content_length resp)) as [n|e] eqn:Hn; [|discriminate].
  pose proof (ensure_space_dir cfg n fname st0) as Hdir.
  destruct (ensure_space cfg n fname st0) as [[[]|e] st1]; [|discriminate].
  cbn [snd] in Hdir.
  destruct (store_download cfg env st1 rid (get_cache_path st0 rid) fname
              platform resp n) as [[b'|e] st2] eqn:Hdl; [|discriminate].
  intros H. injection H as _ <-.
  apply store_download_success in Hdl as (Hd2 & Hfile & row & Hrow & Hsize).
  assert (Hpath : get_cache_path st2 rid = get_cache_path st0 rid)
    by (apply get_cache_path_dir; congruence).
  exists resp, n, row. split; [reflexivity|]. split; [exact Hn|].
  split.
  { unfold is_cached. fold (get_cache_path st2 rid). rewrite Hpath.
    apply path_exists_true. rewrite Hfile. eauto. }
  split; [exact Hrow|]. split; [exact Hsize|].
  rewrite Hpath. exact Hfile.
Qed.

(** After a failed [add_to_cache] no file is left at the blob path. *)
Lemma add_to_cache_failure_blob (cfg : CacheConfig) (env : Env) (st st' : Store)
    (rid url fname : string) (platform : option string) (e : Exc) :
  add_to_cache cfg env st rid url fname platform = (Raised e, st') ->
  files st' !! get_cache_path st rid = None.
Proof.
  unfold add_to_cache. cbv zeta.
  set (st0 := if needs_cleanup cfg st then (cleanup_cache cfg None st).2 else st).
  assert (Hdir : cache_dir st0 = cache_dir st).
  { subst st0. destruct (needs_cleanup cfg st); [|reflexivity].
    apply cleanup_cache_dir. }
  rewrite (get_cache_path_dir st st0 rid Hdir).
  destruct (add_to_cache_try cfg env st0 rid url fname platform)
    as [[b|e'] st1]; [discriminate|].
  intros H. injection H as _ <-.
  destruct (path_exists st1 (get_cache_path st rid)) eqn:Hex.
  - cbn [unlink set_files files]. apply lookup_delete_eq.
  - apply path_exists_false. exact Hex.
Qed.

Example add_no_length :
  let r := add_to_cache cfg_default env_no_length st_empty
             "nes_mario" url_mario "mario.nes" (Some "nes") in
  r.1 = Returned true
  /\ map_to_list (files r.2) = [("/cache/nes_mario", [x4e; x45; x53])].
Proof. vm_compute. auto. Qed.

Example add_broken :
  let r := add_to_cache cfg_default env_broken st_empty
             "nes_mario" url_mario "mario.nes" (Some "nes") in
  r.1 = Raised ChunkedEncodingError
  /\ map_to_list (files r.2) = [("/cache/nes_mario.tmp", [x4e; x45])]
  /\ db r.2 = ∅.
Proof. vm_compute. auto. Qed.

(** A failed second download of a cached ROM deletes the blob and keeps
    the record. *)
Example add_broken_again :
  let r := add_to_cache cfg_default env_broken st_three
             "nes_mario" url_mario "mario.nes" (Some "nes") in
  r.1 = Raised ChunkedEncodingError
  /\ is_Some (db r.2 !! "nes_mario")
  /\ files r.2 !! "/cache/nes_mario" = None.
Proof. vm_compute. eauto. Qed.

(** C1 fails on the code: a successful ingestion of a three-byte answer
    without [content-length] header leaves a cached blob of three bytes
    and an index record whose size is 0. *)
Theorem C1_recorded_size_is_advertised :
  let r := add_to_cache cfg_default env_no_length st_empty
             "nes_mario" url_mario "mario.nes" (Some "nes") in
  r.1 = Returned true
  /\ is_cached r.2 "nes_mario" = true
  /\ row_size_bytes <$> db r.2 !! "nes_mario" = Some 0
  /\ length <$> files r.2 !! get_cache_path r.2 "nes_mario" = Some 3%nat.
Proof. vm_compute. auto. Qed.

(** C2 fails on the code: when the stream breaks after the temporary
    file was created, the exception propagates and the temporary file is
    still on disk with the bytes received. *)
Theorem C2_temp_file_left_behind :
  let r := add_to_cache cfg_default env_broken st_empty
             "nes_mario" url_mario "mario.nes" (Some "nes") in
  r.1 = Raised ChunkedEncodingError
  /\ temp_path_of st_empty "nes_mario" = "/cache/nes_mario.tmp"
  /\ files r.2 !! temp_path_of st_empty "nes_mario" = Some [x4e; x45]
  /\ files r.2 !! get_cache_path st_empty "nes_mario" = None
  /\ db r.2 !! "nes_mario" = None.
Proof. vm_compute. auto. Qed.

End Ingestion.

(** ** Index and blobs together *)

Section Consistency.

Import Samples.

Lemma consistent_empty : Spec.consistent st_empty.
Proof. intros rid. unfold Spec.consistent_at. cbn. rewrite !lookup_empty. exact I. Qed.

(** [cleanup_cache] removes a record and its blob together, so it keeps
    the index and the blobs in step. *)
Lemma cleanup_preserves_consistent (cfg : CacheConfig) (target : option Q)
    (st : Store) :
  Spec.consistent st -> Spec.consistent (cleanup_cache cfg target st).2.
Proof.
  intros Hc rid. specialize (Hc rid). unfold Spec.consistent_at in *.
  rewrite (get_cache_path_dir st) by apply cleanup_cache_dir.
  unfold cleanup_cache. rewrite cleanup_run_exact. cbv zeta.
  destruct (_ <=? 0); cbn [snd loop_store]; [exact Hc|].
  set (to_free := bytes_to_free cfg st (default (min_free_space_gb cfg) target)).
  rewrite remove_entries_db, remove_entries_files.
  destruct (decide (rid ∈ (victims_of cfg to_free st).*1)) as [Hin|Hnot].
  - rewrite !bool_decide_eq_true_2; [exact I| |exact Hin].
    apply list_elem_of_fmap_2. exact Hin.
  - rewrite !bool_decide_eq_false_2; [exact Hc| |exact Hnot].
    intros Hin. apply Hnot. apply victims_of_path. exact Hin.
Qed.

(** C7 fails on the code: from a store in which index and blobs agree, a
    successful [add_to_cache] of an answer without [content-length]
    header leads to one in which the record of the new ROM gives size 0
    for a blob of three bytes. *)
Theorem C7_add_breaks_invariant :
  let r := add_to_cache cfg_default env_no_length st_empty
             "nes_mario" url_mario "mario.nes" (Some "nes") in
  Spec.consistent st_empty
  /\ r.1 = Returned true
  /\ ~ Spec.consistent r.2.
Proof.
  cbv zeta. split; [apply consistent_empty|]. split; [vm_compute; reflexivity|].
  intros H. specialize (H "nes_mario"). vm_compute in H. discriminate.
Qed.

End Consistency.

(** ** The download hand-off of [handle_rom_access] *)

Section HandOff.

Import Integration Samples.

Variable w : World.

(** [target_path] is not a name of the module. *)
Lemma target_path_unbound : bool_decide ("target_path" ∈ module_names) = false.
Proof. vm_compute. reflexivity. Qed.

(** In a frame that binds no [target_path] the argument tuple of the new
    thread cannot be built. *)
Lemma thread_args_raise (th : Thread) :
  locals th !! "target_path" = None -> exists e, thread_args th = Raised e.
Proof.
  intros Hno. unfold thread_args.
  destruct (load_name (locals th) "rom_id"); [|eauto].
  unfold load_name at 1. rewrite Hno, target_path_unbound. eauto.
Qed.

Lemma handler_thread_goto (th : Thread) (p : Pc) :
  handler_thread th -> handler_pc p = true ->
  handler_thread (mkThread p (locals th)).
Proof. intros [_ Hl] Hp. split; [exact Hp|exact Hl]. Qed.

Lemma Forall_handler_insert (ths : list Thread) (t : nat) (th : Thread) :
  Forall handler_thread ths -> handler_thread th ->
  Forall handler_thread (<[t := th]> ths).
Proof. intros H Hth. apply Forall_insert; assumption. Qed.

(** A step of a machine that only runs [handle_rom_access] starts no
    thread and makes no transfer. *)
Lemma step_handlers (t : nat) (m m' : Machine) :
  Forall handler_thread (threads m) ->
  step w t m = Some m' ->
  Forall handler_thread (threads m')
  /\ transfers m' = transfers m
  /\ length (threads m') = length (threads m).
Proof.
  intros Hall. unfold step.
  destruct (threads m !! t) as [th|] eqn:Hth; [|discriminate].
  assert (Hh : handler_thread th)
    by (eapply Forall_lookup_1; eassumption).
  pose proof Hh as [Hpc Hloc].
  assert (Hgo : forall p mm, handler_pc p = true ->
            threads mm = threads m -> transfers mm = transfers m ->
            Forall handler_thread (threads (goto t th p mm))
            /\ transfers (goto t th p mm) = transfers m
            /\ length (threads (goto t th p mm)) = length (threads m)).
  { intros p mm Hp Hts Htr. unfold goto, with_thread.
    cbn [threads transfers]. rewrite Hts, length_insert.
    split; [|auto].
    apply Forall_handler_insert; [exact Hall|].
    apply handler_thread_goto; assumption. }
  destruct (pc th) eqn:Epc; try discriminate Hpc.
  - destruct (is_cached _ _); intros H; injection H as <-; apply Hgo; reflexivity.
  - intros H; injection H as <-; apply Hgo; reflexivity.
  - destruct (download_lock m); [discriminate|].
    intros H; injection H as <-; apply Hgo; reflexivity.
  - destruct (downloading_roms m !! _).
    + intros H; injection H as <-; apply Hgo; reflexivity.
    + intros H; injection H as <-. unfold with_thread.
      cbn [threads transfers with_lock with_downloading with_events].
      rewrite length_insert. split; [|auto].
      apply Forall_handler_insert; [exact Hall|].
      split; [reflexivity|]. cbn [locals].
      rewrite lookup_insert_ne by discriminate. exact Hloc.
  - destruct (event_flags m !! e) as [[|]|]; try discriminate.
    intros H; injection H as <-; apply Hgo; reflexivity.
  - destruct (thread_args_raise th Hloc) as [e He]. rewrite He.
    intros H; injection H as <-; apply Hgo; reflexivity.
  - intros H; injection H as <-; apply Hgo; reflexivity.
  - destruct (download_lock m); [discriminate|].
    intros H; injection H as <-; apply Hgo; reflexivity.
  - intros H; injection H as <-; apply Hgo; reflexivity.
  - discriminate.
Qed.

Lemma run_handlers (schedule : list nat) : forall m m',
  Forall handler_thread (threads m) ->
  run w schedule m = Some m' ->
  Forall handler_thread (threads m')
  /\ transfers m' = transfers m
  /\ length (threads m') = length (threads m).
Proof.
  induction schedule as [|t rest IH]; intros m m' Hall; cbn [run].
  - intros H; injection H as <-. auto.
  - destruct (step w t m) as [m1|] eqn:Hstep; [|discriminate].
    destruct (step_handlers t m m1 Hall Hstep) as (H1 & H2 & H3).
    intros Hrun. destruct (IH m1 m' H1 Hrun) as (H4 & H5 & H6).
    split; [exact H4|]. split; congruence.
Qed.

Lemma callers_handlers cfg st strategy servers rid P n :
  Forall handler_thread (threads (callers cfg st strategy servers rid P n)).
Proof.
  cbn [callers threads]. apply Forall_replicate.
  split; [reflexivity|]. cbn [call_handle_rom_access locals].
  rewrite lookup_insert_ne by discriminate.
  rewrite lookup_insert_ne by discriminate.
  apply lookup_empty.
Qed.

End HandOff.

Section HandOffClaims.

Import Integration Samples.

(** The downloader itself works: started with its arguments bound, it
    makes one transfer and caches the blob. *)
Example downloader_runs :
  match run world_ok [0; 0; 0; 0]%nat machine_downloading with
  | Some m =>
      transfers m = 1%nat
      /\ is_cached (cache_manager m) "nes_mario" = true
      /\ downloading_roms m = ∅
      /\ event_flags m = [true]
  | None => False
  end.
Proof. vm_compute. auto. Qed.

Example callers_join :
  match run world_ok schedule_join
          (callers cfg_default st_empty SYMLINK [server_home]
             "nes_mario" exposed_mario 2) with
  | Some m =>
      pc <$> threads m = [Done; Done]
      /\ transfers m = 0%nat
      /\ is_cached (cache_manager m) "nes_mario" = false
  | None => False
  end.
Proof. vm_compute. auto. Qed.

(** C8 fails on the code: however the calls of [n] callers for one ROM
    are interleaved, no transfer is made and no thread is started, since
    every caller that registers a handle fails to build the arguments of
    the download thread. *)
Theorem C8_callers_never_transfer (w : World) (cfg : CacheConfig) (st : Store)
    (strategy : LinkStrategy) (servers : list ROMServer)
    (rid P : string) (n : nat) (schedule : list nat) (m : Machine) :
  run w schedule (callers cfg st strategy servers rid P n) = Some m ->
  transfers m = 0%nat /\ length (threads m) = n.
Proof.
  intros Hrun.
  destruct (run_handlers w schedule _ m
              (callers_handlers cfg st strategy servers rid P n) Hrun)
    as (_ & Htr & Hlen).
  split; [exact Htr|]. rewrite Hlen. cbn [callers threads].
  apply length_replicate.
Qed.

(** C8 at two callers, the second joining the handle of the first: both
    calls return and nothing was transferred. *)
Lemma C8_callers_never_transfer_witness :
  run world_ok schedule_join
    (callers cfg_default st_empty SYMLINK [server_home]
       "nes_mario" exposed_mario 2) = Some machine_joined
  /\ transfers machine_joined = 0%nat
  /\ length (threads machine_joined) = 2%nat.
Proof.
  split; [vm_compute; reflexivity|].
  apply (C8_callers_never_transfer world_ok cfg_default st_empty SYMLINK
           [server_home] "nes_mario" exposed_mario 2 schedule_join
           machine_joined).
  vm_compute. reflexivity.
Defined.

(** C9 fails on the code: an access to the exposed path of a ROM that is
    neither cached nor being downloaded, and that the server has, runs
    [handle_rom_access] to its end without starting a download: the
    handle is registered and dropped again, and the ROM stays uncached. *)
Theorem C9_no_download_dispatched :
  let m0 := callers cfg_default st_empty SYMLINK [server_home]
              "nes_mario" exposed_mario 1 in
  is_cached (cache_manager m0) "nes_mario" = false
  /\ downloading_roms m0 !! "nes_mario" = None
  /\ build_download_url world_ok [server_home] "nes" (PathLib.name exposed_mario)
     = Some url_mario
  /\ match run world_ok (replicate 7 0%nat) m0 with
     | Some m =>
         threads m = [mkThread Done
                        (<["download_event" := VEvent 0]>
                           (locals (call_handle_rom_access "nes_mario" exposed_mario)))]
         /\ transfers m = 0%nat
         /\ cache_manager m = st_empty
         /\ downloading_roms m = ∅
         /\ event_flags m = [true]
     | None => False
     end.
Proof. vm_compute. auto 10. Qed.

End HandOffClaims.

(** * Further properties of the engine *)

(** ** Comparisons and sums *)

Section MoreFacts.

Lemma Qltb_lt (x y : Q) : Qltb x y = true <-> (x < y)%Q.
Proof.
  unfold Qltb. rewrite negb_true_iff. split.
  - intros H. apply Qnot_le_lt. intros Hle.
    apply Qle_bool_iff in Hle. congruence.
  - intros H. destruct (Qle_bool y x) eqn:E; [|reflexivity].
    apply Qle_bool_iff in E. exfalso. exact (Qlt_not_le _ _ H E).
Qed.

Lemma Qltb_ge (x y : Q) : Qltb x y = false <-> (y <= x)%Q.
Proof. unfold Qltb. rewrite negb_false_iff. apply Qle_bool_iff. Qed.

Lemma sum_sizes_cons (x : string * Row) (l : list (string * Row)) :
  sum_sizes (x :: l) = row_size_bytes x.2 + sum_sizes l.
Proof. reflexivity. Qed.

Lemma sum_sizes_app (l1 l2 : list (string * Row)) :
  sum_sizes (l1 ++ l2)%list = sum_sizes l1 + sum_sizes l2.
Proof.
  induction l1 as [|x l1 IH]; [reflexivity|].
  cbn [app]. rewrite !sum_sizes_cons, IH. lia.
Qed.

Lemma sum_sizes_perm (l1 l2 : list (string * Row)) :
  l1 ≡ₚ l2 -> sum_sizes l1 = sum_sizes l2.
Proof.
  induction 1 as [|x l1 l2 _ IH|x y l|l1 l2 l3 _ IH1 _ IH2];
    rewrite ?sum_sizes_cons in *; lia.
Qed.

(** The [SUM] aggregate is the sum over the rows in any order. *)
Lemma sum_size_bytes_list (d : gmap string Row) :
  sum_size_bytes d = sum_sizes (map_to_list d).
Proof.
  unfold sum_size_bytes. rewrite map_fold_foldr. unfold sum_sizes.
  induction (map_to_list d) as [|[k r] l IH]; [reflexivity|].
  cbn. rewrite IH. reflexivity.
Qed.

Lemma sum_size_bytes_delete (d : gmap string Row) (k : string) (r : Row) :
  d !! k = Some r ->
  sum_size_bytes (delete k d) = sum_size_bytes d - row_size_bytes r.
Proof.
  intros Hk. unfold sum_size_bytes.
  rewrite (map_fold_delete_L _ _ k r d); [lia| |exact Hk].
  intros. lia.
Qed.

Lemma sum_size_bytes_insert (d : gmap string Row) (k : string) (r : Row) :
  d !! k = None ->
  sum_size_bytes (<[k := r]> d) = sum_size_bytes d + row_size_bytes r.
Proof.
  intros Hk. unfold sum_size_bytes.
  rewrite map_fold_insert_L; [lia| |exact Hk].
  intros. lia.
Qed.

End MoreFacts.

(** ** Statistics and the cleanup trigger *)

Section Trigger.

Import Samples.




End Trigger.

(** ** Listing, touching and marking *)

Section Listing.

Import Samples.

Lemma recent_le_iff (a b : string * Row) :
  recent_le a b <-> (row_last_accessed b.2 <= row_last_accessed a.2)%Q.
Proof. unfold recent_le, recent_leb. rewrite Is_true_true. apply Qle_bool_iff. Qed.

Lemma recent_le_total : Total recent_le.
Proof.
  intros a b. rewrite !recent_le_iff.
  destruct (Qlt_le_dec (row_last_accessed a.2) (row_last_accessed b.2)) as [H|H].
  - right. apply Qlt_le_weak. exact H.
  - left. exact H.
Qed.

Lemma recent_le_trans : Transitive recent_le.
Proof.
  intros a b c. rewrite !recent_le_iff. intros H1 H2.
  eapply Qle_trans; eassumption.
Qed.

Lemma recent_sorted (d : gmap string Row) :
  StronglySorted recent_le (merge_sort recent_le (map_to_list d)).
Proof.
  apply (@StronglySorted_merge_sort _ recent_le _ recent_le_trans recent_le_total).
Qed.

Lemma recent_elem (d : gmap string Row) (k : string) (r : Row) :
  (k, r) ∈ merge_sort recent_le (map_to_list d) <-> d !! k = Some r.
Proof. rewrite merge_sort_Permutation. apply elem_of_map_to_list. Qed.

(** [list_cached_roms] returns one entry per index record, the most
    recently accessed first. *)
Theorem list_cached_roms_spec (st : Store) :
  StronglySorted (fun a b => (last_accessed b <= last_accessed a)%Q)
    (list_cached_roms st)
  /\ length (list_cached_roms st) = size (db st)
  /\ NoDup (rom_id <$> list_cached_roms st)
  /\ forall e, e ∈ list_cached_roms st <->
       exists row, db st !! rom_id e = Some row
                   /\ e = entry_of_row (rom_id e, row).
Proof.
  unfold list_cached_roms. split; [|split; [|split]].
  - apply (StronglySorted_fmap _ recent_le); [|apply recent_sorted].
    intros x y H. apply recent_le_iff in H. exact H.
  - rewrite length_fmap, merge_sort_Permutation. apply length_map_to_list.
  - rewrite <- list_fmap_compose.
    assert (E : (rom_id ∘ entry_of_row) <$> merge_sort recent_le (map_to_list (db st))
                = (merge_sort recent_le (map_to_list (db st))).*1)
      by (apply list_fmap_ext; intros _ x _; reflexivity).
    rewrite E, merge_sort_Permutation. apply NoDup_fst_map_to_list.
  - intros e. rewrite list_elem_of_fmap. split.
    + intros ([k r] & -> & Hin). apply recent_elem in Hin.
      exists r. split; [exact Hin|reflexivity].
    + intros (row & Hrow & He). exists (rom_id e, row).
      split; [exact He|]. apply recent_elem. exact Hrow.
Qed.

(** The total of [get_cache_stats] is the sum of [size_bytes] over
    [list_cached_roms]. *)
Theorem stats_total_is_list_sum (cfg : CacheConfig) (st : Store) :
  sum_size_bytes (db st) = sum_entry_sizes (list_cached_roms st)
  /\ total_files (get_cache_stats cfg st)
     = Z.of_nat (length (list_cached_roms st))
  /\ (total_size_gb (get_cache_stats cfg st)
      == inject_Z (sum_entry_sizes (list_cached_roms st)) / inject_Z (1024 ^ 3))%Q.
Proof.
  assert (Hsum : sum_size_bytes (db st) = sum_entry_sizes (list_cached_roms st)).
  { rewrite sum_size_bytes_list.
    rewrite <- (sum_sizes_perm _ _ (merge_sort_Permutation recent_le (map_to_list (db st)))).
    unfold list_cached_roms.
    induction (merge_sort recent_le (map_to_list (db st))) as [|x l IH];
      [reflexivity|].
    rewrite sum_sizes_cons, IH. reflexivity. }
  split; [exact Hsum|]. split.
  - cbn [get_cache_stats total_files]. unfold count_rows, list_cached_roms.
    rewrite length_fmap, merge_sort_Permutation, length_map_to_list. reflexivity.
  - cbn [get_cache_stats total_size_gb]. rewrite Hsum. reflexivity.
Qed.

(** An [UPDATE] that names an id without record changes nothing:
    [mark_accessed] and [set_favorite] are no-ops on an unknown id. *)
Theorem update_absent_noop (now : Q) (fav : bool) (rid : string) (st : Store) :
  db st !! rid = None ->
  Integration.mark_accessed now rid st = st /\ set_favorite rid fav st = st.
Proof.
  intros Hno. unfold Integration.mark_accessed, set_favorite, set_db.
  rewrite !alter_id' by exact Hno. destruct st; auto.
Qed.

Lemma update_absent_noop_witness :
  Integration.mark_accessed 5000 "snes_metroid" st_three = st_three
  /\ set_favorite "snes_metroid" true st_three = st_three.
Proof.
  apply (update_absent_noop 5000 true "snes_metroid" st_three).
  vm_compute. reflexivity.
Defined.

(** [mark_accessed] with a time later than every other record's last
    access puts the ROM first in [list_cached_roms], and touches no
    file. *)
Theorem mark_accessed_moves_to_front (now : Q) (rid : string) (row : Row)
    (st : Store) :
  db st !! rid = Some row ->
  (forall k r, k <> rid -> db st !! k = Some r -> (row_last_accessed r < now)%Q) ->
  files (Integration.mark_accessed now rid st) = files st
  /\ exists e rest,
       list_cached_roms (Integration.mark_accessed now rid st) = e :: rest
       /\ rom_id e = rid /\ last_accessed e = now
       /\ size_bytes e = row_size_bytes row
       /\ is_favorite e = row_is_favorite row.
Proof.
  intros Hrow Hold. split; [reflexivity|].
  set (st' := Integration.mark_accessed now rid st).
  set (row' := mkRow (row_filename row) (row_size_bytes row) now
                 (row_download_time row) (row_priority_score row)
                 (row_is_favorite row) (row_platform row)).
  assert (Hrid : db st' !! rid = Some row').
  { cbn [st' Integration.mark_accessed set_db db].
    rewrite lookup_alter_eq, Hrow. reflexivity. }
  assert (Hother : forall k r, k <> rid -> db st' !! k = Some r ->
                     (row_last_accessed r < now)%Q).
  { intros k r Hk Hr. apply (Hold k r Hk).
    cbn [st' Integration.mark_accessed set_db db] in Hr.
    rewrite lookup_alter_ne in Hr by congruence. exact Hr. }
  unfold list_cached_roms.
  pose proof (recent_sorted (db st')) as Hsorted.
  pose proof (proj2 (recent_elem (db st') rid row') Hrid) as Hin.
  assert (Hall : forall x, x ∈ merge_sort recent_le (map_to_list (db st')) ->
                   db st' !! x.1 = Some x.2)
    by (intros [k r] Hx; apply recent_elem; exact Hx).
  destruct (merge_sort recent_le (map_to_list (db st'))) as [|[k r] rest];
    [inversion Hin|].
  exists (entry_of_row (k, r)), (entry_of_row <$> rest).
  split; [reflexivity|].
  assert (Hk : k = rid).
  { destruct (decide (k = rid)) as [E|Hne]; [exact E|exfalso].
    pose proof (Hall (k, r) (list_elem_of_here _ _)) as Hkr.
    change (db st' !! k = Some r) in Hkr.
    pose proof (Hother k r Hne Hkr) as Hlt.
    apply elem_of_cons in Hin as [E|Hin]; [congruence|].
    apply StronglySorted_inv in Hsorted as [_ Hfa].
    rewrite Forall_forall in Hfa.
    specialize (Hfa (rid, row') Hin). apply recent_le_iff in Hfa.
    cbn in Hfa. exact (Qlt_not_le _ _ Hlt Hfa). }
  subst k.
  pose proof (Hall (rid, r) (list_elem_of_here _ _)) as Hr.
  change (db st' !! rid = Some r) in Hr.
  rewrite Hrid in Hr. injection Hr as <-. auto.
Qed.

(** At [st_three], touching [psx_ff7], the oldest record, at time 5000. *)
Lemma mark_accessed_moves_to_front_witness :
  files (Integration.mark_accessed 5000 "psx_ff7" st_three) = files st_three
  /\ exists e rest,
       list_cached_roms (Integration.mark_accessed 5000 "psx_ff7" st_three)
       = e :: rest
       /\ rom_id e = "psx_ff7" /\ last_accessed e = 5000%Q
       /\ size_bytes e = 3000000
       /\ is_favorite e = true.
Proof.
  apply (mark_accessed_moves_to_front 5000 "psx_ff7"
           (mkRow "ff7.bin" 3000000 500 500 110 true (Some "psx")) st_three).
  - vm_compute. reflexivity.
  - intros k r Hk Hr. apply elem_of_map_to_list in Hr.
    vm_compute in Hr.
    repeat (apply elem_of_cons in Hr as [Hr|Hr];
            [injection Hr as -> ->; try congruence; reflexivity|]).
    inversion Hr.
Defined.

End Listing.

(** ** More on eviction *)

Section MoreCleanup.

Import Samples.

Lemma filter_fst_nodup {A} (f : string * A -> bool) (l : list (string * A)) :
  NoDup l.*1 -> NoDup (List.filter f l).*1.
Proof.
  induction l as [|x l IH]; [intros; apply NoDup_nil_2|].
  rewrite fmap_cons. intros Hnd. apply NoDup_cons in Hnd as [Hx Hnd].
  cbn [List.filter]. destruct (f x); [|auto].
  rewrite fmap_cons. apply NoDup_cons. split; [|auto].
  intros Hin. apply Hx. apply list_elem_of_fmap in Hin as (y & -> & Hy).
  apply list_elem_of_fmap_2. apply list_elem_of_In.
  apply list_elem_of_In, List.filter_In in Hy as [Hy _]. exact Hy.
Qed.

Lemma victims_nodup (cfg : CacheConfig) (to_free : Z) (st : Store) :
  NoDup (victims_of cfg to_free st).*1.
Proof.
  unfold victims_of.
  destruct (take_until_prefix to_free
              (List.filter (evictable cfg st) (select_ordered (db st))) 0)
    as (rest & Heq & _).
  pose proof (filter_fst_nodup (evictable cfg st) _ (select_ordered_nodup (db st)))
    as Hnd.
  rewrite Heq, fmap_app in Hnd. apply NoDup_app in Hnd as [Hnd _]. exact Hnd.
Qed.

(** The rows a cleanup returns, computed from the store it starts in. *)
Lemma cleanup_cache_exact (cfg : CacheConfig) (target : option Q) (st : Store) :
  exists victims : list (string * Row),
    cleanup_run cfg target st
      = mkLoop victims.*1 (sum_sizes victims) (remove_entries victims.*1 st)
    /\ NoDup victims.*1
    /\ forall x, x ∈ victims ->
         db st !! x.1 = Some x.2
         /\ row_is_favorite x.2 && favorite_protection cfg = false
         /\ is_Some (files st !! get_cache_path st x.1).
Proof.
  rewrite cleanup_run_exact. cbv zeta.
  destruct (_ <=? 0).
  - exists []. split; [reflexivity|]. split; [apply NoDup_nil_2|].
    intros x Hx. inversion Hx.
  - eexists. split; [reflexivity|]. split; [apply victims_nodup|].
    apply victims_of_spec.
Qed.

Lemma remove_entries_size (ids : list string) : forall st,
  NoDup ids -> (forall k, k ∈ ids -> is_Some (db st !! k)) ->
  size (db (remove_entries ids st)) = (size (db st) - length ids)%nat.
Proof.
  induction ids as [|k ids IH]; intros st Hnd Hall.
  - cbn. lia.
  - apply NoDup_cons in Hnd as [Hk Hnd].
    rewrite remove_entries_cons, IH; [|exact Hnd|].
    + rewrite remove_entry_db, map_size_delete_Some
        by (apply Hall, list_elem_of_here).
      cbn [length]. lia.
    + intros j Hj. rewrite remove_entry_db, lookup_delete_ne.
      * apply Hall. apply elem_of_cons. auto.
      * intros ->. contradiction.
Qed.

Lemma remove_entries_sum (victims : list (string * Row)) : forall st,
  NoDup victims.*1 ->
  (forall x, x ∈ victims -> db st !! x.1 = Some x.2) ->
  sum_size_bytes (db (remove_entries victims.*1 st))
  = sum_size_bytes (db st) - sum_sizes victims.
Proof.
  induction victims as [|[k r] victims IH]; intros st Hnd Hall.
  - cbn. lia.
  - rewrite fmap_cons in Hnd. apply NoDup_cons in Hnd as [Hk Hnd].
    rewrite fmap_cons, remove_entries_cons, IH; [|exact Hnd|].
    + rewrite remove_entry_db, sum_sizes_cons.
      rewrite (sum_size_bytes_delete _ k r) by (apply (Hall (k, r)), list_elem_of_here).
      cbn [fst snd]. lia.
    + intros x Hx. rewrite remove_entry_db, lookup_delete_ne.
      * apply Hall. apply elem_of_cons. auto.
      * intros E. apply Hk. rewrite E.
        apply (list_elem_of_fmap_2 fst). exact Hx.
Qed.

(** The ids [cleanup_cache] returns are distinct and each named an
    index record; afterwards exactly those records are gone, the record
    count has dropped by their number, and no file was added or changed. *)
Theorem cleanup_result_spec (cfg : CacheConfig) (target : option Q) (st : Store) :
  let r := cleanup_cache cfg target st in
  NoDup r.1
  /\ (forall k, k ∈ r.1 -> is_Some (db st !! k))
  /\ (forall k, db r.2 !! k = if bool_decide (k ∈ r.1) then None else db st !! k)
  /\ count_rows (db r.2) = count_rows (db st) - Z.of_nat (length r.1)
  /\ files r.2 ⊆ files st.
Proof.
  cbv zeta. unfold cleanup_cache.
  destruct (cleanup_cache_exact cfg target st) as (victims & -> & Hnd & Hall).
  cbn [fst snd removed_roms loop_store].
  assert (Hin : forall k, k ∈ victims.*1 -> is_Some (db st !! k)).
  { intros k Hk. apply list_elem_of_fmap in Hk as (x & -> & Hx).
    destruct (Hall x Hx) as (Hdb & _). rewrite Hdb. eauto. }
  split; [exact Hnd|]. split; [exact Hin|].
  split; [intros k; apply remove_entries_db|]. split.
  - unfold count_rows. rewrite remove_entries_size by assumption.
    assert (length victims.*1 <= size (db st))%nat; [|lia].
    rewrite <- length_map_to_list, <- (length_fmap fst (map_to_list (db st))).
    apply submseteq_length, NoDup_submseteq; [exact Hnd|].
    intros k Hk. destruct (Hin k Hk) as [r Hr].
    apply list_elem_of_fmap. exists (k, r). split; [reflexivity|].
    apply elem_of_map_to_list. exact Hr.
  - apply map_subseteq_spec. intros p c. rewrite remove_entries_files.
    destruct (bool_decide _); [discriminate|auto].
Qed.

Lemma py_int_upper (x : Q) : (x < inject_Z (py_int x + 1))%Q.
Proof.
  unfold py_int, Qlt. destruct x as [n d]. cbn [Qnum Qden inject_Z].
  pose proof (Z.quot_rem' n (Z.pos d)) as E.
  assert (Z.rem n (Z.pos d) < Z.pos d).
  { destruct (Z.le_gt_cases 0 n) as [H|H].
    - apply Z.rem_bound_pos; lia.
    - pose proof (Z.rem_nonpos n (Z.pos d)). lia. }
  nia.
Qed.




Lemma cleanup_accounting_aux (cfg : CacheConfig) (target : option Q) (st : Store) :
  let ls := cleanup_run cfg target st in
  sum_size_bytes (db (loop_store ls)) = sum_size_bytes (db st) - freed_bytes ls
  /\ (free_space_gb (get_cache_stats cfg (loop_store ls))
      == free_space_gb (get_cache_stats cfg st)
         + inject_Z (freed_bytes ls) / inject_Z (1024 ^ 3))%Q.
Proof.
  cbv zeta.
  destruct (cleanup_cache_exact cfg target st) as (victims & -> & Hnd & Hall).
  cbn [loop_store freed_bytes].
  assert (Hsum : sum_size_bytes (db (remove_entries victims.*1 st))
                 = sum_size_bytes (db st) - sum_sizes victims).
  { apply remove_entries_sum; [exact Hnd|]. intros x Hx. apply Hall. exact Hx. }
  split; [exact Hsum|].
  cbn [get_cache_stats free_space_gb]. rewrite Hsum. unfold int_div.
  unfold Z.sub. rewrite inject_Z_plus, inject_Z_opp.
  change (inject_Z GiB) with (1073741824 # 1)%Q.
  change (inject_Z (1024 ^ 3)) with (1073741824 # 1)%Q.
  field.
Qed.

(** The byte total of the index drops by exactly the bytes
    [cleanup_cache] counts as freed, and the free space of
    [get_cache_stats] grows by as much. *)
Theorem cleanup_accounting (cfg : CacheConfig) (target : option Q) (st : Store) :
  let ls := cleanup_run cfg target st in
  sum_size_bytes (db (loop_store ls)) = sum_size_bytes (db st) - freed_bytes ls
  /\ (free_space_gb (get_cache_stats cfg (loop_store ls))
      == free_space_gb (get_cache_stats cfg st)
         + inject_Z (freed_bytes ls) / inject_Z (1024 ^ 3))%Q.
Proof. apply cleanup_accounting_aux. Qed.



(** A record left out of the returned list keeps its row and its blob. *)
Lemma cleanup_cache_frame (cfg : CacheConfig) (target : option Q) (st : Store)
    (rid : string) :
  rid ∉ (cleanup_cache cfg target st).1 ->
  db (cleanup_cache cfg target st).2 !! rid = db st !! rid
  /\ files (cleanup_cache cfg target st).2 !! get_cache_path st rid
     = files st !! get_cache_path st rid.
Proof.
  unfold cleanup_cache.
  destruct (cleanup_cache_exact cfg target st) as (victims & -> & _ & _).
  cbn [fst snd removed_roms loop_store]. intros Hnot. split.
  - rewrite remove_entries_db, bool_decide_eq_false_2 by exact Hnot. reflexivity.
  - rewrite remove_entries_files, bool_decide_eq_false_2; [reflexivity|].
    intros Hin. apply Hnot.
    apply list_elem_of_fmap in Hin as (k & E & Hk).
    apply get_cache_path_inj in E. congruence.
Qed.

(** A record named in the returned list has lost its row and its blob. *)
Lemma cleanup_cache_removed (cfg : CacheConfig) (target : option Q) (st : Store)
    (rid : string) :
  rid ∈ (cleanup_cache cfg target st).1 ->
  db (cleanup_cache cfg target st).2 !! rid = None
  /\ files (cleanup_cache cfg target st).2 !! get_cache_path st rid = None.
Proof.
  unfold cleanup_cache.
  destruct (cleanup_cache_exact cfg target st) as (victims & -> & _ & _).
  cbn [fst snd removed_roms loop_store]. intros Hin. split.
  - rewrite remove_entries_db, bool_decide_eq_true_2 by exact Hin. reflexivity.
  - rewrite remove_entries_files, bool_decide_eq_true_2; [reflexivity|].
    apply list_elem_of_fmap_2. exact Hin.
Qed.






Lemma evictable_remove_entries (cfg : CacheConfig) (ids : list string) :
  forall (st : Store) (x : string * Row),
    x.1 ∉ ids -> evictable cfg (remove_entries ids st) x = evictable cfg st x.
Proof.
  induction ids as [|k ids IH]; intros st x Hx; [reflexivity|].
  rewrite remove_entries_cons, IH.
  - apply evictable_remove_entry. intros E. apply Hx. rewrite E.
    apply list_elem_of_here.
  - intros Hin. apply Hx. apply elem_of_cons. auto.
Qed.

Lemma filter_none {A} (f : A -> bool) (l : list A) :
  (forall x, x ∈ l -> f x = false) -> List.filter f l = [].
Proof.
  induction l as [|x l IH]; intros H; [reflexivity|].
  cbn [List.filter]. rewrite (H x (list_elem_of_here _ _)).
  apply IH. intros y Hy. apply H. apply elem_of_cons. auto.
Qed.

(** [cleanup_cache] is idempotent: called again with the same target on
    the store it has left, it removes nothing.  Either the first call
    reached its target, and then less than one byte is missing, or it ran
    out of records it may evict, and then none is left. *)
Theorem cleanup_idempotent (cfg : CacheConfig) (target : option Q) (st : Store) :
  cleanup_cache cfg target (cleanup_cache cfg target st).2
  = ([], (cleanup_cache cfg target st).2).
Proof.
  set (t := default (min_free_space_gb cfg) target).
  set (to_free := bytes_to_free cfg st t).
  destruct (Z.leb_spec to_free 0) as [Hle|Hpos].
  { assert (E : cleanup_cache cfg target st = ([], st)).
    { unfold cleanup_cache. rewrite cleanup_run_exact. cbv zeta.
      fold t. fold to_free. apply Z.leb_le in Hle. rewrite Hle. reflexivity. }
    rewrite E. cbn [snd]. exact E. }
  assert (Hb : (to_free <=? 0) = false) by (apply Z.leb_gt; exact Hpos).
  assert (E : cleanup_run cfg target st
              = mkLoop (victims_of cfg to_free st).*1
                  (sum_sizes (victims_of cfg to_free st))
                  (remove_entries (victims_of cfg to_free st).*1 st)).
  { rewrite cleanup_run_exact. cbv zeta. fold t. fold to_free.
    rewrite Hb. reflexivity. }
  unfold cleanup_cache at 2 3. rewrite E. cbn [snd loop_store].
  set (st' := remove_entries (victims_of cfg to_free st).*1 st).
  destruct (take_until_prefix to_free
              (List.filter (evictable cfg st) (select_ordered (db st))) 0)
    as (rest & Heq & _ & Hstop).
  fold (victims_of cfg to_free st) in Heq, Hstop.
  unfold cleanup_cache. rewrite cleanup_run_exact. cbv zeta. fold t.
  destruct (bytes_to_free cfg st' t <=? 0) eqn:Hb'; [reflexivity|].
  apply Z.leb_gt in Hb'.
  destruct rest as [|y rest].
  - (* every evictable row was removed *)
    rewrite app_nil_r in Heq.
    assert (Hnone : List.filter (evictable cfg st') (select_ordered (db st')) = []).
    { apply filter_none. intros [k r] Hx.
      apply select_ordered_lookup in Hx. subst st'.
      rewrite remove_entries_db in Hx.
      destruct (decide (k ∈ (victims_of cfg to_free st).*1)) as [Hin|Hnot].
      { rewrite bool_decide_eq_true_2 in Hx by exact Hin. discriminate. }
      rewrite bool_decide_eq_false_2 in Hx by exact Hnot.
      rewrite evictable_remove_entries by exact Hnot.
      destruct (evictable cfg st (k, r)) eqn:Hev; [exfalso|reflexivity].
      apply Hnot. apply (list_elem_of_fmap_2 fst (victims_of cfg to_free st) (k, r)).
      rewrite <- Heq. apply list_elem_of_In, List.filter_In.
      split; [|exact Hev].
      apply list_elem_of_In, select_ordered_lookup. exact Hx. }
    unfold victims_of. rewrite Hnone. reflexivity.
  - (* the target was reached *)
    exfalso. assert (Hreach : to_free <= sum_sizes (victims_of cfg to_free st))
      by (specialize (Hstop ltac:(discriminate)); lia).
    destruct (cleanup_accounting_aux cfg target st) as [_ Hfree].
    rewrite E in Hfree. cbn [loop_store freed_bytes] in Hfree. fold st' in Hfree.
    assert (Hlt : ((t - free_space_gb (get_cache_stats cfg st'))
                   * inject_Z GiB < 1)%Q).
    { pose proof (py_int_upper
                    ((t - free_space_gb (get_cache_stats cfg st)) * inject_Z GiB))
        as Hup.
      fold (bytes_to_free cfg st t) in Hup. fold to_free in Hup.
      rewrite Hfree. rewrite Zle_Qle in Hreach. rewrite inject_Z_plus in Hup.
      change (inject_Z 1) with 1%Q in Hup.
      change (inject_Z (1024 ^ 3)) with (1073741824 # 1)%Q.
      change (inject_Z GiB) with (1073741824 # 1)%Q in *.
      unfold Qdiv. change (/ (1073741824 # 1))%Q with (1 # 1073741824)%Q.
      generalize dependent (inject_Z (sum_sizes (victims_of cfg to_free st))).
      generalize dependent (inject_Z to_free).
      generalize dependent (free_space_gb (get_cache_stats cfg st)).
      intros fr a Hup b Hreach _. lra. }
    apply py_int_nonpos_iff in Hlt. unfold bytes_to_free in Hb'. lia.
Qed.

End MoreCleanup.

(** ** More on ingestion *)

Section MoreIngestion.

Import Samples.

Lemma cleanup_cache_subseteq (cfg : CacheConfig) (target : option Q) (st : Store) :
  db (cleanup_cache cfg target st).2 ⊆ db st
  /\ files (cleanup_cache cfg target st).2 ⊆ files st.
Proof.
  unfold cleanup_cache.
  destruct (cleanup_cache_exact cfg target st) as (victims & -> & _ & _).
  cbn [snd loop_store]. split; apply map_subseteq_spec; intros k x.
  - rewrite remove_entries_db. destruct (bool_decide _); [discriminate|auto].
  - rewrite remove_entries_files. destruct (bool_decide _); [discriminate|auto].
Qed.

Lemma ensure_space_subseteq (cfg : CacheConfig) (n : Z) (fname : string) (st : Store) :
  db (ensure_space cfg n fname st).2 ⊆ db st
  /\ files (ensure_space cfg n fname st).2 ⊆ files st.
Proof.
  unfold ensure_space.
  destruct (Qgtb (inject_Z n) (available_space cfg st)); [|split; reflexivity].
  destruct (Qgtb _ _); cbn [snd]; apply cleanup_cache_subseteq.
Qed.

Lemma unlink_subseteq (p : string) (st : Store) :
  files (if path_exists st p then unlink p st else st) ⊆ files st.
Proof.
  destruct (path_exists st p); [|reflexivity].
  cbn [unlink set_files files]. apply delete_subseteq.
Qed.

Lemma add_to_cache_returns_aux (cfg : CacheConfig) (env : Env) (st st' : Store)
    (rid url fname : string) (platform : option string) (b : bool) :
  add_to_cache cfg env st rid url fname platform = (Returned b, st') ->
  b = true
  /\ exists resp n,
       requests_get env url = Some resp
       /\ status_ok resp = true
       /\ stream_breaks resp = false
       /\ header_int (content_length resp) = Returned n
       /\ db st' !! rid
          = Some (mkRow fname n (time_now env) (time_now env)
                    (calculate_priority_score cfg (time_score env)
                       (mkCacheEntry rid fname n (time_now env) (time_now env)
                          0 false) platform)
                    false platform)
       /\ files st' !! get_cache_path st rid = Some (concat (chunks resp)).
Proof.
  unfold add_to_cache. cbv zeta.
  set (st0 := if needs_cleanup cfg st then (cleanup_cache cfg None st).2 else st).
  assert (Hdir0 : cache_dir st0 = cache_dir st).
  { subst st0. destruct (needs_cleanup cfg st); [|reflexivity].
    apply cleanup_cache_dir. }
  rewrite <- (get_cache_path_dir st st0 rid Hdir0).
  unfold add_to_cache_try. cbv zeta.
  destruct (requests_get env url) as [resp|]; [|discriminate].
  destruct (status_ok resp) eqn:Hok; cbn [negb]; [|discriminate].
  destruct (header_int (content_length resp)) as [n|e] eqn:Hn; [|discriminate].
  destruct (ensure_space cfg n fname st0) as [[[]|e] st1]; [|discriminate].
  unfold store_download. cbv zeta.
  destruct (stream_breaks resp) eqn:Hbr; [discriminate|].
  intros H. injection H as <- <-.
  split; [reflexivity|]. exists resp, n.
  split; [reflexivity|]. split; [exact Hok|]. split; [exact Hbr|].
  split; [exact Hn|]. split.
  - cbn [insert_or_replace set_db db]. apply lookup_insert_eq.
  - cbn [insert_or_replace set_db files]. apply rename_written.
Qed.

(** A call that returns has returned [True]: the answer was complete, the
    record carries the advertised length, the time of the call as both
    time stamps and a cleared favorite flag, and the blob holds the bytes
    received. *)
Theorem add_to_cache_returns (cfg : CacheConfig) (env : Env) (st st' : Store)
    (rid url fname : string) (platform : option string) (b : bool) :
  add_to_cache cfg env st rid url fname platform = (Returned b, st') ->
  b = true
  /\ exists resp n,
       requests_get env url = Some resp
       /\ status_ok resp = true
       /\ stream_breaks resp = false
       /\ header_int (content_length resp) = Returned n
       /\ db st' !! rid
          = Some (mkRow fname n (time_now env) (time_now env)
                    (calculate_priority_score cfg (time_score env)
                       (mkCacheEntry rid fname n (time_now env) (time_now env)
                          0 false) platform)
                    false platform)
       /\ files st' !! get_cache_path st rid = Some (concat (chunks resp)).
Proof. apply add_to_cache_returns_aux. Qed.

(** A second download of the favorite [psx_ff7] of [st_three]. *)
Lemma add_to_cache_returns_witness :
  exists resp n,
    requests_get env_mario "http://server/roms/psx/ff7.bin" = Some resp
    /\ status_ok resp = true
    /\ stream_breaks resp = false
    /\ header_int (content_length resp) = Returned n
    /\ db (add_to_cache cfg_default env_mario st_three "psx_ff7"
             "http://server/roms/psx/ff7.bin" "ff7.bin" (Some "psx")).2
         !! "psx_ff7"
       = Some (mkRow "ff7.bin" n 1000 1000
                 (calculate_priority_score cfg_default 1001
                    (mkCacheEntry "psx_ff7" "ff7.bin" n 1000 1000 0 false)
                    (Some "psx"))
                 false (Some "psx"))
    /\ files (add_to_cache cfg_default env_mario st_three "psx_ff7"
                "http://server/roms/psx/ff7.bin" "ff7.bin" (Some "psx")).2
         !! get_cache_path st_three "psx_ff7"
       = Some (concat (chunks resp)).
Proof.
  apply (add_to_cache_returns cfg_default env_mario st_three _ "psx_ff7"
           "http://server/roms/psx/ff7.bin" "ff7.bin" (Some "psx") true).
  vm_compute. reflexivity.
Defined.

Lemma add_to_cache_try_raises (cfg : CacheConfig) (env : Env) (st st' : Store)
    (rid url fname : string) (platform : option string) (e : Exc) :
  add_to_cache_try cfg env st rid url fname platform = (Raised e, st') ->
  db st' ⊆ db st
  /\ (e <> ChunkedEncodingError -> files st' ⊆ files st).
Proof.
  unfold add_to_cache_try. cbv zeta.
  destruct (requests_get env url) as [resp|];
    [|intros H; injection H as _ <-; split; reflexivity].
  destruct (status_ok resp); cbn [negb];
    [|intros H; injection H as _ <-; split; reflexivity].
  destruct (header_int (content_length resp)) as [n|e0];
    [|intros H; injection H as _ <-; split; reflexivity].
  pose proof (ensure_space_subseteq cfg n fname st) as [Hdb Hfiles].
  destruct (ensure_space cfg n fname st) as [[[]|e0] st1]; cbn [snd] in *.
  - unfold store_download. cbv zeta.
    destruct (stream_breaks resp); [|discriminate].
    intros H. injection H as <- <-. split; [exact Hdb|congruence].
  - intros H. injection H as _ <-. auto.
Qed.

Lemma add_to_cache_raises_aux (cfg : CacheConfig) (env : Env) (st st' : Store)
    (rid url fname : string) (platform : option string) (e : Exc) :
  add_to_cache cfg env st rid url fname platform = (Raised e, st') ->
  files st' !! get_cache_path st rid = None
  /\ db st' ⊆ db st
  /\ (e <> ChunkedEncodingError -> files st' ⊆ files st).
Proof.
  intros H. split; [exact (add_to_cache_failure_blob _ _ _ _ _ _ _ _ _ H)|].
  revert H. unfold add_to_cache. cbv zeta.
  set (st0 := if needs_cleanup cfg st then (cleanup_cache cfg None st).2 else st).
  assert (H0 : db st0 ⊆ db st /\ files st0 ⊆ files st).
  { subst st0. destruct (needs_cleanup cfg st); [|split; reflexivity].
    apply cleanup_cache_subseteq. }
  destruct H0 as [Hdb0 Hfiles0].
  destruct (add_to_cache_try cfg env st0 rid url fname platform)
    as [[b|e'] st1] eqn:Htry; [discriminate|].
  apply add_to_cache_try_raises in Htry as [Hdb1 Hfiles1].
  intros H. injection H as <- <-. split.
  - destruct (path_exists st1 _); cbn [unlink set_files db];
      (etransitivity; [exact Hdb1|exact Hdb0]).
  - intros Hne. etransitivity; [apply unlink_subseteq|].
    etransitivity; [exact (Hfiles1 Hne)|exact Hfiles0].
Qed.

(** A call that raises leaves no file at the blob path and adds no index
    record; unless the stream broke during the transfer, it has written
    no file at all. *)
Theorem add_to_cache_raises (cfg : CacheConfig) (env : Env) (st st' : Store)
    (rid url fname : string) (platform : option string) (e : Exc) :
  add_to_cache cfg env st rid url fname platform = (Raised e, st') ->
  files st' !! get_cache_path st rid = None
  /\ db st' ⊆ db st
  /\ (e <> ChunkedEncodingError -> files st' ⊆ files st).
Proof. apply add_to_cache_raises_aux. Qed.

(** No server answers while [nes_mario] of [st_three] is requested
    again: its blob is deleted, its record stays. *)
Lemma add_to_cache_raises_witness :
  files (add_to_cache cfg_default env_down st_three "nes_mario" url_mario
           "mario.nes" (Some "nes")).2 !! get_cache_path st_three "nes_mario"
  = None
  /\ db (add_to_cache cfg_default env_down st_three "nes_mario" url_mario
           "mario.nes" (Some "nes")).2 ⊆ db st_three
  /\ (ConnectionError <> ChunkedEncodingError ->
      files (add_to_cache cfg_default env_down st_three "nes_mario" url_mario
               "mario.nes" (Some "nes")).2 ⊆ files st_three).
Proof.
  apply (add_to_cache_raises cfg_default env_down st_three _ "nes_mario"
           url_mario "mario.nes" (Some "nes") ConnectionError).
  vm_compute. reflexivity.
Defined.





Lemma cleanup_cache_outside (cfg : CacheConfig) (target : option Q) (st : Store)
    (p : string) :
  outside_cache st p ->
  files (cleanup_cache cfg target st).2 !! p = files st !! p.
Proof.
  intros Hout. unfold cleanup_cache.
  destruct (cleanup_cache_exact cfg target st) as (victims & -> & _ & _).
  cbn [snd loop_store]. rewrite remove_entries_files.
  rewrite bool_decide_eq_false_2; [reflexivity|].
  intros Hin. apply list_elem_of_fmap in Hin as (k & E & _).
  exact (Hout k E).
Qed.

Lemma outside_cache_dir (st st' : Store) (p : string) :
  cache_dir st' = cache_dir st -> outside_cache st p -> outside_cache st' p.
Proof. unfold outside_cache. intros ->. auto. Qed.

Lemma store_download_dir (cfg : CacheConfig) (env : Env) (st : Store)
    (rid cache_path fname : string) (platform : option string)
    (resp : Response) (n : Z) :
  cache_dir (store_download cfg env st rid cache_path fname platform resp n).2
  = cache_dir st.
Proof.
  unfold store_download. cbv zeta.
  destruct (stream_breaks resp); [reflexivity|].
  cbn [snd insert_or_replace set_db cache_dir]. unfold rename.
  destruct (files _ !! _); reflexivity.
Qed.

Lemma add_to_cache_dir (cfg : CacheConfig) (env : Env) (st : Store)
    (rid url fname : string) (platform : option string) :
  cache_dir (add_to_cache cfg env st rid url fname platform).2 = cache_dir st.
Proof.
  unfold add_to_cache. cbv zeta.
  set (st0 := if needs_cleanup cfg st then (cleanup_cache cfg None st).2 else st).
  assert (Hdir0 : cache_dir st0 = cache_dir st).
  { subst st0. destruct (needs_cleanup cfg st); [|reflexivity].
    apply cleanup_cache_dir. }
  assert (Htry : cache_dir (add_to_cache_try cfg env st0 rid url fname platform).2
                 = cache_dir st0).
  { unfold add_to_cache_try. cbv zeta.
    destruct (requests_get env url) as [resp|]; [|reflexivity].
    destruct (status_ok resp); cbn [negb]; [|reflexivity].
    destruct (header_int (content_length resp)) as [n|e]; [|reflexivity].
    pose proof (ensure_space_dir cfg n fname st0) as Hd.
    destruct (ensure_space cfg n fname st0) as [[[]|e] st1]; cbn [snd] in *.
    - rewrite store_download_dir. exact Hd.
    - exact Hd. }
  destruct (add_to_cache_try cfg env st0 rid url fname platform) as [[b|e] st1];
    cbn [snd] in *; [congruence|].
  destruct (path_exists st1 _); cbn; congruence.
Qed.

Lemma add_to_cache_stays_in_cache_dir_aux (cfg : CacheConfig) (env : Env)
    (st : Store) (rid url fname : string) (platform : option string)
    (p : string) :
  outside_cache st p ->
  files (add_to_cache cfg env st rid url fname platform).2 !! p = files st !! p.
Proof.
  intros Hout. unfold add_to_cache. cbv zeta.
  set (st0 := if needs_cleanup cfg st then (cleanup_cache cfg None st).2 else st).
  assert (Hdir0 : cache_dir st0 = cache_dir st).
  { subst st0. destruct (needs_cleanup cfg st); [|reflexivity].
    apply cleanup_cache_dir. }
  assert (H0 : files st0 !! p = files st !! p).
  { subst st0. destruct (needs_cleanup cfg st); [|reflexivity].
    apply cleanup_cache_outside. exact Hout. }
  pose proof (outside_cache_dir st st0 p Hdir0 Hout) as Hout0.
  assert (Htry : files (add_to_cache_try cfg env st0 rid url fname platform).2 !! p
                 = files st0 !! p).
  { unfold add_to_cache_try. cbv zeta.
    destruct (requests_get env url) as [resp|]; [|reflexivity].
    destruct (status_ok resp); cbn [negb]; [|reflexivity].
    destruct (header_int (content_length resp)) as [n|e]; [|reflexivity].
    assert (Hes : files (ensure_space cfg n fname st0).2 !! p = files st0 !! p).
    { unfold ensure_space.
      destruct (Qgtb (inject_Z n) (available_space cfg st0)); [|reflexivity].
      destruct (Qgtb _ _); cbn [snd]; apply cleanup_cache_outside; exact Hout0. }
    pose proof (ensure_space_dir cfg n fname st0) as Hd.
    destruct (ensure_space cfg n fname st0) as [[[]|e] st1]; cbn [snd] in *;
      [|exact Hes].
    pose proof (outside_cache_dir st0 st1 p Hd Hout0) as Hout1.
    rewrite <- Hes. unfold store_download. cbv zeta.
    assert (Htmp : p <> temp_path_of st1 rid) by apply Hout1.
    assert (Hcp : p <> get_cache_path st0 rid) by apply Hout0.
    destruct (stream_breaks resp); cbn [snd].
    - cbn [write_file set_files files]. apply lookup_insert_ne. congruence.
    - cbn [insert_or_replace set_db files]. unfold rename.
      cbn [write_file set_files files]. rewrite lookup_insert_eq.
      cbn [set_files files].
      rewrite lookup_insert_ne by congruence.
      rewrite lookup_delete_ne by congruence.
      apply lookup_insert_ne. congruence. }
  destruct (add_to_cache_try cfg env st0 rid url fname platform) as [[b|e] st1];
    cbn [snd] in *; [congruence|].
  destruct (path_exists st1 (get_cache_path st0 rid)); [|congruence].
  cbn [unlink set_files files]. rewrite lookup_delete_ne; [congruence|].
  intros E. exact (Hout0 rid (eq_sym E)).
Qed.



End MoreIngestion.

(** * Further properties of the pipeline *)

(** ** Download URLs and ROM identifiers *)

Section Identifiers.

Import Integration Samples.

(** [_build_download_url] answers with the URL of the first configured
    server that maps the platform and answers the probe with 200, and
    with nothing exactly when no server does. *)
Theorem build_download_url_spec (w : World) (servers : list ROMServer)
    (platform fname : string) :
  match build_download_url w servers platform fname with
  | Some url =>
      exists pre server post server_path,
        servers = (pre ++ server :: post)%list
        /\ Forall (no_luck w platform fname) pre
        /\ platform_paths server !! platform = Some server_path
        /\ url = candidate_url server server_path fname
        /\ requests_head w url = Some 200
  | None => Forall (no_luck w platform fname) servers
  end.
Proof.
  induction servers as [|server rest IH]; cbn [build_download_url].
  - apply Forall_nil_2.
  - fold (candidate_url server).
    destruct (platform_paths server !! platform) as [server_path|] eqn:Hmap.
    + fold (candidate_url server server_path fname).
      destruct (requests_head w (candidate_url server server_path fname))
        as [code|] eqn:Hprobe.
      * destruct (decide (code = 200)) as [->|Hne].
        -- exists [], server, rest, server_path.
           split; [reflexivity|]. split; [apply Forall_nil_2|]. auto.
        -- assert (Hno : no_luck w platform fname server).
           { intros p Hp. rewrite Hmap in Hp. injection Hp as <-.
             rewrite Hprobe. congruence. }
           assert (E : match code with
                       | 200 => Some (candidate_url server server_path fname)
                       | _ => build_download_url w rest platform fname
                       end = build_download_url w rest platform fname).
           { destruct code as [|c|c]; try reflexivity.
             do 8 (destruct c as [c|c|]; try reflexivity).
             exfalso. apply Hne. reflexivity. }
           rewrite E.
           destruct (build_download_url w rest platform fname) as [url|].
           ++ destruct IH as (pre & s & post & sp & -> & Hpre & Hs & Hu & Hp).
              exists (server :: pre), s, post, sp.
              split; [reflexivity|]. split; [apply Forall_cons; auto|]. auto.
           ++ apply Forall_cons. auto.
      * assert (Hno : no_luck w platform fname server).
        { intros p Hp. rewrite Hmap in Hp. injection Hp as <-.
          rewrite Hprobe. discriminate. }
        destruct (build_download_url w rest platform fname) as [url|].
        -- destruct IH as (pre & s & post & sp & -> & Hpre & Hs & Hu & Hp).
           exists (server :: pre), s, post, sp.
           split; [reflexivity|]. split; [apply Forall_cons; auto|]. auto.
        -- apply Forall_cons. auto.
    + assert (Hno : no_luck w platform fname server).
      { intros p Hp. congruence. }
      destruct (build_download_url w rest platform fname) as [url|].
      * destruct IH as (pre & s & post & sp & -> & Hpre & Hs & Hu & Hp).
        exists (server :: pre), s, post, sp.
        split; [reflexivity|]. split; [apply Forall_cons; auto|]. auto.
      * apply Forall_cons. auto.
Qed.

Lemma length_append (a b : string) :
  String.length (a ++ b) = (String.length a + String.length b)%nat.
Proof.
  induction a as [|c a IH]; simpl; [reflexivity|].
  rewrite IH. reflexivity.
Qed.

Lemma length_lower (s : string) : String.length (lower s) = String.length s.
Proof. induction s as [|c s IH]; cbn; [reflexivity|]. rewrite IH. reflexivity. Qed.

Lemma length_replace_space (s : string) :
  String.length (replace_space s) = String.length s.
Proof. induction s as [|c s IH]; cbn; [reflexivity|]. rewrite IH. reflexivity. Qed.

Lemma substring_all (s : string) : substring 0 (String.length s) s = s.
Proof. induction s as [|c s IH]; cbn; [reflexivity|]. rewrite IH. reflexivity. Qed.

Lemma name_cons (c : ascii) (s : string) (i : nat) :
  PathLib.rfind "/" s = Some i -> PathLib.name (String c s) = PathLib.name s.
Proof.
  intros H. unfold PathLib.name. cbn [PathLib.rfind]. rewrite H. reflexivity.
Qed.

Lemma name_slash (f : string) : PathLib.name (String "/" f) = PathLib.name f.
Proof.
  destruct (PathLib.rfind "/" f) as [i|] eqn:H.
  - apply (name_cons _ _ i H).
  - unfold PathLib.name. cbn [PathLib.rfind]. rewrite H.
    cbn. rewrite Nat.sub_0_r. apply substring_all.
Qed.

Lemma rfind_slash_app (d f : string) :
  is_Some (PathLib.rfind "/" (d ++ String "/" f)).
Proof.
  induction d as [|c d [i IH]]; simpl.
  - destruct (PathLib.rfind "/" f); eexists; reflexivity.
  - rewrite IH. eexists; reflexivity.
Qed.

(** The final component of [dir / name] is that of [name]. *)
Lemma name_join (d f : string) : PathLib.name (PathLib.join d f) = PathLib.name f.
Proof.
  unfold PathLib.join. change ("/" ++ f)%string with (String "/" f).
  induction d as [|c d IH].
  - apply name_slash.
  - change (String c d ++ String "/" f)%string
      with (String c (d ++ String "/" f)).
    destruct (rfind_slash_app d f) as [i Hi].
    rewrite (name_cons _ _ i Hi). exact IH.
Qed.

(** The id [on_accessed] derives from an exposed path is never the id
    under which [_setup_platform_symlinks] linked that path: the one is
    the bare stem of the file name, the other carries the platform and an
    underscore in front of it. *)
Theorem extracted_id_never_generated (platform_dir platform fname : string) :
  extract_rom_id (PathLib.join platform_dir fname)
  <> generate_rom_id platform fname.
Proof.
  unfold extract_rom_id, generate_rom_id, path_stem. cbv zeta.
  rewrite name_join. intros E. apply (f_equal String.length) in E.
  rewrite length_lower, length_replace_space, !length_append in E.
  cbn [String.length] in E. lia.
Qed.





(** A platform directory with a space or an underscore in its name is
    not recovered. *)
Example platform_not_recovered :
  split_head (generate_rom_id "Sega CD" "Sonic CD.iso") = "sega"
  /\ split_head (generate_rom_id "neo_geo" "mslug.zip") = "neo".
Proof. split; reflexivity. Qed.

End Identifiers.

(** ** Threads of the pipeline *)

Section Threads.

Import Integration Samples.

Lemma lookup_goto (t : nat) (th : Thread) (p : Pc) (m : Machine) :
  (t < length (threads m))%nat ->
  threads (goto t th p m) !! t = Some (mkThread p (locals th)).
Proof.
  intros H. unfold goto, with_thread. cbn [threads].
  apply list_lookup_insert_eq. exact H.
Qed.

Lemma lookup_bound (t : nat) (th : Thread) (m : Machine) :
  threads m !! t = Some th -> (t < length (threads m))%nat.
Proof. apply lookup_lt_Some. Qed.

(** A cache hit takes two steps and never asks for the lock: it ends
    even while another thread holds it, and changes nothing but the
    [last_accessed] column of the ROM's record. *)
Theorem cache_hit_needs_no_lock (w : World) (m : Machine) (t : nat) (th : Thread) :
  threads m !! t = Some th ->
  pc th = H_is_cached ->
  is_cached (cache_manager m) (local_str th "rom_id") = true ->
  exists m',
    run w [t; t] m = Some m'
    /\ threads m' = <[t := mkThread Done (locals th)]> (threads m)
    /\ cache_manager m'
       = mark_accessed (time_now (engine_env w)) (local_str th "rom_id")
           (cache_manager m)
    /\ download_lock m' = download_lock m
    /\ downloading_roms m' = downloading_roms m
    /\ event_flags m' = event_flags m
    /\ transfers m' = transfers m.
Proof.
  intros Hth Hpc Hhit. pose proof (lookup_bound t th m Hth) as Hlt.
  cbn [run]. unfold step at 1. rewrite Hth, Hpc, Hhit.
  unfold step. rewrite lookup_goto by exact Hlt. cbn [pc locals].
  eexists. split; [reflexivity|].
  unfold goto, with_thread, with_cache. cbn.
  rewrite list_insert_insert_eq. auto 10.
Qed.

Lemma cache_hit_needs_no_lock_witness :
  exists m',
    run world_ok [0; 0]%nat machine_hit = Some m'
    /\ threads m'
       = <[0%nat := mkThread Done
                      (locals (call_handle_rom_access "nes_mario" exposed_mario))]>
           (threads machine_hit)
    /\ cache_manager m'
       = mark_accessed (time_now (engine_env world_ok)) "nes_mario"
           (cache_manager machine_hit)
    /\ download_lock m' = Some 1%nat
    /\ downloading_roms m' = downloading_roms machine_hit
    /\ event_flags m' = event_flags machine_hit
    /\ transfers m' = transfers machine_hit.
Proof.
  apply (cache_hit_needs_no_lock world_ok machine_hit 0
           (call_handle_rom_access "nes_mario" exposed_mario)).
  - reflexivity.
  - reflexivity.
  - vm_compute. reflexivity.
Defined.

(** A caller that finds the handle of an in-flight download waits for
    its event inside the [with] block: it holds [download_lock] until the
    event is set, and until then no thread that asks for the lock, for
    whatever ROM, can take a step.  Once the event is set the waiter
    returns and frees the lock. *)
Theorem joiner_holds_lock (w : World) (m : Machine) (t : nat) (th : Thread)
    (e : nat) :
  threads m !! t = Some th ->
  pc th = H_acquire ->
  download_lock m = None ->
  downloading_roms m !! local_str th "rom_id" = Some e ->
  event_flags m !! e = Some false ->
  exists m',
    run w [t; t] m = Some m'
    /\ threads m' = <[t := mkThread (H_wait e) (locals th)]> (threads m)
    /\ download_lock m' = Some t
    /\ step w t m' = None
    /\ (forall t' th', threads m' !! t' = Some th' ->
          acquire_pc (pc th') = true -> step w t' m' = None)
    /\ exists m'',
         step w t (with_events (<[e := true]> (event_flags m')) m') = Some m''
         /\ download_lock m'' = None
         /\ threads m'' = <[t := mkThread Done (locals th)]> (threads m).
Proof.
  intros Hth Hpc Hlock Hreg Hflag.
  pose proof (lookup_bound t th m Hth) as Hlt.
  cbn [run]. unfold step at 1. rewrite Hth, Hpc, Hlock.
  unfold step at 1. rewrite lookup_goto by exact Hlt.
  cbn [pc locals]. unfold local_str at 1. cbn [locals].
  fold (local_str th "rom_id").
  change (downloading_roms (goto t th H_in_lock (with_lock (Some t) m)))
    with (downloading_roms m).
  rewrite Hreg.
  eexists. split; [reflexivity|].
  set (m' := goto t (mkThread H_in_lock (locals th)) (H_wait e)
               (goto t th H_in_lock (with_lock (Some t) m))).
  assert (Hths : threads m' = <[t := mkThread (H_wait e) (locals th)]> (threads m)).
  { subst m'. unfold goto, with_thread. cbn. apply list_insert_insert_eq. }
  assert (Hlk : download_lock m' = Some t) by reflexivity.
  assert (Hfl : event_flags m' = event_flags m) by reflexivity.
  assert (Hat : threads m' !! t = Some (mkThread (H_wait e) (locals th))).
  { rewrite Hths. apply list_lookup_insert_eq. exact Hlt. }
  split; [exact Hths|]. split; [exact Hlk|]. split; [|split].
  - unfold step. rewrite Hat. cbn [pc]. rewrite Hfl, Hflag. reflexivity.
  - intros t' th' Ht' Hacq. unfold step. rewrite Ht', Hlk.
    destruct (pc th'); try discriminate Hacq; reflexivity.
  - eexists. unfold step.
    change (threads (with_events (<[e:=true]> (event_flags m')) m'))
      with (threads m').
    rewrite Hat. cbn [pc].
    change (event_flags (with_events (<[e:=true]> (event_flags m')) m'))
      with (<[e:=true]> (event_flags m')).
    rewrite list_lookup_insert_eq
      by (rewrite Hfl; apply (lookup_lt_Some _ _ _ Hflag)).
    split; [reflexivity|]. split; [reflexivity|].
    unfold goto, with_thread. cbn [threads with_lock with_events locals].
    rewrite Hths. apply list_insert_insert_eq.
Qed.

Lemma joiner_holds_lock_witness :
  exists m',
    run world_ok [0; 0]%nat machine_inflight = Some m'
    /\ threads m'
       = <[0%nat := mkThread (H_wait 0)
                      (locals (call_handle_rom_access "nes_mario" exposed_mario))]>
           (threads machine_inflight)
    /\ download_lock m' = Some 0%nat
    /\ step world_ok 0 m' = None
    /\ (forall t' th', threads m' !! t' = Some th' ->
          acquire_pc (pc th') = true -> step world_ok t' m' = None)
    /\ exists m'',
         step world_ok 0 (with_events (<[0%nat := true]> (event_flags m')) m')
         = Some m''
         /\ download_lock m'' = None
         /\ threads m''
            = <[0%nat := mkThread Done
                           (locals (call_handle_rom_access "nes_mario" exposed_mario))]>
                (threads machine_inflight).
Proof.
  apply (joiner_holds_lock world_ok machine_inflight 0
           (mkThread H_acquire
              (locals (call_handle_rom_access "nes_mario" exposed_mario))) 0).
  - reflexivity.
  - reflexivity.
  - reflexivity.
  - vm_compute. reflexivity.
  - reflexivity.
Defined.

Lemma download_body_frame (w : World) (th : Thread) (m : Machine) :
  threads (download_body w th m) = threads m
  /\ download_lock (download_body w th m) = download_lock m
  /\ event_flags (download_body w th m) = event_flags m
  /\ downloading_roms (download_body w th m) = downloading_roms m
  /\ transfers (download_body w th m)
     = match build_download_url w (rom_servers m)
               (split_head (local_str th "rom_id"))
               (PathLib.name (local_str th "target_path")) with
       | Some _ => S (transfers m)
       | None => transfers m
       end.
Proof.
  unfold download_body. cbv zeta.
  destruct (build_download_url w (rom_servers m) _ _); [|auto].
  destruct (add_to_cache _ _ _ _ _ _ _) as [[b|e] st]; cbn; auto.
Qed.

(** [_download_rom_async] always ends by setting its event and dropping
    the handle of its ROM, whether a server had the ROM or not and
    whether [add_to_cache] returned or raised; it makes one transfer
    when a download URL was found and none otherwise. *)
Theorem downloader_always_signals (w : World) (m : Machine) (t : nat)
    (th : Thread) (e : nat) :
  threads m !! t = Some th ->
  pc th = D_download ->
  locals th !! "download_event" = Some (VEvent e) ->
  (e < length (event_flags m))%nat ->
  download_lock m = None ->
  exists m',
    run w [t; t; t; t] m = Some m'
    /\ threads m' = <[t := mkThread Done (locals th)]> (threads m)
    /\ event_flags m' = <[e := true]> (event_flags m)
    /\ event_flags m' !! e = Some true
    /\ downloading_roms m'
       = delete (local_str th "rom_id") (downloading_roms m)
    /\ download_lock m' = None
    /\ transfers m'
       = match build_download_url w (rom_servers m)
                 (split_head (local_str th "rom_id"))
                 (PathLib.name (local_str th "target_path")) with
         | Some _ => S (transfers m)
         | None => transfers m
         end.
Proof.
  intros Hth Hpc Hev He Hlock.
  pose proof (lookup_bound t th m Hth) as Hlt.
  destruct (download_body_frame w th m) as (Bths & Blk & Bfl & Bdl & Btr).
  cbn [run]. unfold step at 1. rewrite Hth, Hpc.
  set (m1 := goto t th D_finally_set (download_body w th m)).
  assert (H1 : threads m1 !! t = Some (mkThread D_finally_set (locals th)))
    by (apply lookup_goto; rewrite Bths; exact Hlt).
  unfold step at 1. rewrite H1. cbn [pc].
  assert (Hle : local_event (mkThread D_finally_set (locals th)) = e)
    by (unfold local_event; cbn [locals]; rewrite Hev; reflexivity).
  rewrite Hle.
  set (m2 := goto t (mkThread D_finally_set (locals th)) D_finally_acquire
               (with_events (<[e:=true]> (event_flags m1)) m1)).
  assert (Hlen1 : (t < length (threads m1))%nat)
    by (apply (lookup_lt_Some _ _ _ H1)).
  assert (H2 : threads m2 !! t = Some (mkThread D_finally_acquire (locals th)))
    by exact (lookup_goto t (mkThread D_finally_set (locals th))
                D_finally_acquire _ Hlen1).
  unfold step at 1. rewrite H2. cbn [pc].
  change (download_lock m2) with (download_lock (download_body w th m)).
  rewrite Blk, Hlock.
  set (m3 := goto t (mkThread D_finally_acquire (locals th)) D_finally_pop
               (with_lock (Some t) m2)).
  assert (H3 : threads m3 !! t = Some (mkThread D_finally_pop (locals th)))
    by exact (lookup_goto t (mkThread D_finally_acquire (locals th))
                D_finally_pop _ (lookup_lt_Some _ _ _ H2)).
  unfold step at 1. rewrite H3. cbn [pc].
  eexists. split; [reflexivity|].
  assert (Hfl : event_flags m3 = <[e := true]> (event_flags m))
    by (cbn; rewrite Bfl; reflexivity).
  split.
  { unfold goto, with_thread. cbn. rewrite Bths.
    rewrite !list_insert_insert_eq. reflexivity. }
  split; [exact Hfl|]. split.
  { change (event_flags (goto t (mkThread D_finally_pop (locals th)) Done
       (with_lock None
          (with_downloading
             (delete (local_str (mkThread D_finally_pop (locals th)) "rom_id")
                (downloading_roms m3)) m3)))) with (event_flags m3).
    rewrite Hfl. apply list_lookup_insert_eq. exact He. }
  split.
  { cbn. rewrite Bdl. reflexivity. }
  split; [reflexivity|].
  cbn. exact Btr.
Qed.

(** The downloader of [machine_downloading]: the server has the ROM. *)
Lemma downloader_always_signals_witness :
  exists m',
    run world_ok [0; 0; 0; 0]%nat machine_downloading = Some m'
    /\ event_flags m' !! 0%nat = Some true
    /\ downloading_roms m' !! "nes_mario" = None
    /\ download_lock m' = None
    /\ transfers m' = 1%nat.
Proof.
  destruct (downloader_always_signals world_ok machine_downloading 0
              (mkThread D_download
                 (<["rom_id" := VStr "nes_mario"]>
                    (<["target_path" := VPath exposed_mario]>
                       (<["download_event" := VEvent O]> ∅)))) 0)
    as (m' & Hrun & _ & _ & Hflag & Hreg & Hlock & Htr).
  - reflexivity.
  - reflexivity.
  - vm_compute. reflexivity.
  - vm_compute. lia.
  - reflexivity.
  - exists m'. split; [exact Hrun|]. split; [exact Hflag|].
    split; [rewrite Hreg; vm_compute; reflexivity|].
    split; [exact Hlock|]. rewrite Htr. vm_compute. reflexivity.
Defined.

(** Under the copy strategy a download that succeeds ends with the
    exposed file, if it was there as a placeholder outside the cache
    directory, holding the bytes received, the same as the blob. *)
Theorem copy_refreshed_after_download (w : World) (m : Machine) (th : Thread)
    (url : string) :
  let rid := local_str th "rom_id" in
  let target_path := local_str th "target_path" in
  let fname := PathLib.name target_path in
  let st := cache_manager m in
  linker_strategy m = COPY ->
  build_download_url w (rom_servers m) (split_head rid) fname = Some url ->
  (add_to_cache (config m) (engine_env w) st rid url fname
     (Some (split_head rid))).1 = Returned true ->
  is_Some (files st !! target_path) ->
  outside_cache st target_path ->
  exists resp,
    requests_get (engine_env w) url = Some resp
    /\ files (cache_manager (download_body w th m)) !! target_path
       = Some (concat (chunks resp))
    /\ files (cache_manager (download_body w th m)) !! get_cache_path st rid
       = Some (concat (chunks resp)).
Proof.
  intros rid target_path fname st Hcopy Hurl Hok Hplace Hout.
  unfold download_body. cbv zeta.
  fold rid. fold target_path. fold fname. rewrite Hurl.
  change (config (count_transfer m)) with (config m).
  change (cache_manager (count_transfer m)) with st.
  change (linker_strategy (count_transfer m)) with (linker_strategy m).
  pose proof (add_to_cache_stays_in_cache_dir_aux (config m) (engine_env w) st rid
                url fname (Some (split_head rid)) target_path Hout) as Hkeep.
  pose proof (add_to_cache_dir (config m) (engine_env w) st rid url fname
                (Some (split_head rid))) as Hdir.
  destruct (add_to_cache (config m) (engine_env w) st rid url fname
              (Some (split_head rid))) as [[b|e] st'] eqn:Hadd;
    cbn [fst snd] in *; [|discriminate].
  apply add_to_cache_returns_aux in Hadd
    as (_ & resp & n & Hget & _ & _ & _ & _ & Hblob).
  exists resp. split; [exact Hget|].
  rewrite (get_cache_path_dir st st' rid Hdir).
  rewrite Hcopy. unfold update_cached_file. rewrite Hblob, Hkeep.
  destruct Hplace as [old Hold]. rewrite Hold.
  cbn [cache_manager with_cache write_file set_files files]. split.
  - apply lookup_insert_eq.
  - rewrite lookup_insert_ne; [exact Hblob|]. apply Hout.
Qed.

Lemma copy_refreshed_after_download_witness :
  exists resp,
    requests_get (engine_env world_ok) url_mario = Some resp
    /\ files (cache_manager
                (download_body world_ok
                   (mkThread D_download
                      (<["rom_id" := VStr "nes_mario"]>
                         (<["target_path" := VPath exposed_mario]>
                            (<["download_event" := VEvent O]> ∅))))
                   machine_copy)) !! exposed_mario
       = Some (concat (chunks resp)).
Proof.
  destruct (copy_refreshed_after_download world_ok machine_copy
              (mkThread D_download
                 (<["rom_id" := VStr "nes_mario"]>
                    (<["target_path" := VPath exposed_mario]>
                       (<["download_event" := VEvent O]> ∅))))
              url_mario) as (resp & Hget & Htarget & _).
  - reflexivity.
  - vm_compute. reflexivity.
  - vm_compute. reflexivity.
  - vm_compute. eauto.
  - intros x E. vm_compute in E. discriminate E.
  - exists resp. split; [exact Hget|exact Htarget].
Defined.

(** Strategy detection never picks hard links, picks symbolic links on
    every platform whose name does not start with ["win"], and the
    refresh after a download changes the store only when detection fell
    back to copying, that is on Windows with both probes failing. *)
Theorem detected_strategy_spec (platform : string)
    (can_create_symlinks can_create_junctions : bool) :
  let strategy :=
    detect_best_strategy platform can_create_symlinks can_create_junctions in
  strategy <> HARDLINK
  /\ (String.prefix "win" platform = false -> strategy = SYMLINK)
  /\ forall cache_path target_path st,
       update_cached_file strategy cache_path target_path st <> st ->
       String.prefix "win" platform = true
       /\ can_create_symlinks = false /\ can_create_junctions = false.
Proof.
  cbv zeta. unfold detect_best_strategy.
  destruct (String.prefix "win" platform), can_create_symlinks,
    can_create_junctions; cbn [update_cached_file];
    (split; [discriminate|]); (split; [congruence|]);
    intros c t st H; try (exfalso; apply H; reflexivity); auto.
Qed.

Lemma detected_strategy_spec_witness :
  detect_best_strategy "linux" false false = SYMLINK.
Proof.
  apply (proj1 (proj2 (detected_strategy_spec "linux" false false))).
  reflexivity.
Defined.

(** A call of [handle_rom_access] for a ROM that is not cached and has no
    handle registered, made while the lock is free and left to run,
    returns after seven steps without having started a thread or a
    transfer: the handle it registered is gone again, the lock is free,
    the cache is untouched, and the only trace is one more event, set. *)
Theorem handle_rom_access_gives_up (w : World) (m : Machine) (t : nat)
    (th : Thread) :
  threads m !! t = Some th ->
  pc th = H_is_cached ->
  locals th !! "target_path" = None ->
  is_cached (cache_manager m) (local_str th "rom_id") = false ->
  downloading_roms m !! local_str th "rom_id" = None ->
  download_lock m = None ->
  exists m',
    run w [t; t; t; t; t; t; t] m = Some m'
    /\ threads m'
       = <[t := mkThread Done
                  (<["download_event" := VEvent (length (event_flags m))]>
                     (locals th))]> (threads m)
    /\ downloading_roms m' = downloading_roms m
    /\ event_flags m' = (event_flags m ++ [true])%list
    /\ download_lock m' = None
    /\ cache_manager m' = cache_manager m
    /\ transfers m' = transfers m.
Proof.
  intros Hth Hpc Hno Hmiss Hreg Hlock.
  pose proof (lookup_bound t th m Hth) as Hlt.
  set (rid := local_str th "rom_id") in *.
  set (e := length (event_flags m)).
  set (loc := <["download_event" := VEvent e]> (locals th)).
  assert (Hrid : forall p, local_str (mkThread p loc) "rom_id" = rid).
  { intros p. unfold local_str, loc. cbn [locals].
    rewrite lookup_insert_ne by discriminate. reflexivity. }
  assert (Hev : forall p, local_event (mkThread p loc) = e).
  { intros p. unfold local_event, loc. cbn [locals].
    rewrite lookup_insert_eq. reflexivity. }
  assert (Hargs : exists x, thread_args (mkThread H_start_thread loc) = Raised x).
  { apply thread_args_raise. unfold loc. cbn [locals].
    rewrite lookup_insert_ne by discriminate. exact Hno. }
  destruct Hargs as [x Hargs].
  (* 366: not cached *)
  cbn [run]. unfold step at 1. rewrite Hth, Hpc. fold rid. rewrite Hmiss.
  (* 373: take the lock *)
  unfold step at 1. rewrite lookup_goto by exact Hlt. cbn [pc].
  change (download_lock (goto t th H_acquire m)) with (download_lock m).
  rewrite Hlock.
  set (m2 := goto t (mkThread H_acquire (locals th)) H_in_lock
               (with_lock (Some t) (goto t th H_acquire m))).
  assert (Hlen2 : (t < length (threads m2))%nat).
  { subst m2. unfold goto, with_thread. cbn [threads with_lock].
    rewrite !length_insert. exact Hlt. }
  assert (H2 : threads m2 !! t = Some (mkThread H_in_lock (locals th))).
  { subst m2. unfold goto at 1, with_thread at 1. cbn [threads locals].
    apply list_lookup_insert_eq. unfold goto, with_thread. cbn [threads with_lock].
    rewrite length_insert. exact Hlt. }
  (* 374, 381-382: register the handle, leave the with block *)
  unfold step at 1. rewrite H2. cbn [pc].
  change (local_str (mkThread H_in_lock (locals th)) "rom_id") with rid.
  change (downloading_roms m2) with (downloading_roms m). rewrite Hreg.
  change (event_flags m2) with (event_flags m). fold e.
  change (<["download_event" := VEvent e]>
            (locals (mkThread H_in_lock (locals th)))) with loc.
  set (m3 := with_thread t (mkThread H_start_thread loc)
               (with_lock None
                  (with_downloading (<[rid := e]> (downloading_roms m))
                     (with_events (event_flags m ++ [false]) m2)))).
  assert (H3 : threads m3 !! t = Some (mkThread H_start_thread loc)).
  { subst m3. unfold with_thread. cbn [threads with_lock with_downloading with_events].
    apply list_lookup_insert_eq. exact Hlen2. }
  assert (Hlen3 : (t < length (threads m3))%nat)
    by (apply (lookup_lt_Some _ _ _ H3)).
  (* 386-390: the arguments cannot be built *)
  unfold step at 1. rewrite H3. cbn [pc]. rewrite Hargs.
  set (m4 := goto t (mkThread H_start_thread loc) H_except_set m3).
  assert (H4 : threads m4 !! t = Some (mkThread H_except_set loc))
    by exact (lookup_goto t (mkThread H_start_thread loc) H_except_set m3 Hlen3).
  (* 394: set the event *)
  unfold step at 1. rewrite H4. cbn [pc]. rewrite Hev.
  set (m5 := goto t (mkThread H_except_set loc) H_except_acquire
               (with_events (<[e := true]> (event_flags m4)) m4)).
  assert (H5 : threads m5 !! t = Some (mkThread H_except_acquire loc))
    by exact (lookup_goto t (mkThread H_except_set loc) H_except_acquire _
                (lookup_lt_Some _ _ _ H4)).
  (* 395: take the lock again *)
  unfold step at 1. rewrite H5. cbn [pc].
  change (download_lock m5) with (@None nat).
  set (m6 := goto t (mkThread H_except_acquire loc) H_except_pop
               (with_lock (Some t) m5)).
  assert (H6 : threads m6 !! t = Some (mkThread H_except_pop loc))
    by exact (lookup_goto t (mkThread H_except_acquire loc) H_except_pop _
                (lookup_lt_Some _ _ _ H5)).
  (* 396: drop the handle *)
  unfold step at 1. rewrite H6. cbn [pc]. rewrite Hrid.
  eexists. split; [reflexivity|].
  split.
  { unfold goto, with_thread. cbn. rewrite !list_insert_insert_eq. reflexivity. }
  split.
  { cbn. apply delete_insert_id. exact Hreg. }
  split.
  { cbn. fold e.
    replace e with (length (event_flags m) + 0)%nat by (unfold e; lia).
    rewrite insert_app_r. reflexivity. }
  split; [reflexivity|]. split; reflexivity.
Qed.

(** One caller on the empty cache. *)
Lemma handle_rom_access_gives_up_witness :
  exists m',
    run world_ok [0; 0; 0; 0; 0; 0; 0]%nat
      (callers cfg_default st_empty SYMLINK [server_home]
         "nes_mario" exposed_mario 1) = Some m'
    /\ downloading_roms m' = ∅
    /\ event_flags m' = [true]
    /\ download_lock m' = None
    /\ cache_manager m' = st_empty
    /\ transfers m' = 0%nat.
Proof.
  destruct (handle_rom_access_gives_up world_ok
              (callers cfg_default st_empty SYMLINK [server_home]
                 "nes_mario" exposed_mario 1) 0
              (call_handle_rom_access "nes_mario" exposed_mario))
    as (m' & Hrun & _ & Hreg & Hfl & Hlock & Hcache & Htr).
  - reflexivity.
  - reflexivity.
  - vm_compute. reflexivity.
  - vm_compute. reflexivity.
  - vm_compute. reflexivity.
  - reflexivity.
  - exists m'. split; [exact Hrun|]. split; [exact Hreg|].
    split; [exact Hfl|]. split; [exact Hlock|]. split; [exact Hcache|exact Htr].
Defined.

End Threads.

(** ** Index and blobs under eviction *)

Section KeepsInStep.

Import Samples.

(** [cleanup_cache] keeps index and blobs in step: if every id has a
    record exactly when its blob is on disk, with the recorded size,
    before the call, then so it is after the call. *)
Theorem cleanup_keeps_index_and_blobs (cfg : CacheConfig) (target : option Q)
    (st : Store) :
  Spec.consistent st -> Spec.consistent (cleanup_cache cfg target st).2.
Proof.
  intros Hc rid. specialize (Hc rid). unfold Spec.consistent_at in *.
  rewrite (get_cache_path_dir st) by apply cleanup_cache_dir.
  destruct (decide (rid ∈ (cleanup_cache cfg target st).1)) as [Hin|Hnot].
  - destruct (cleanup_cache_removed cfg target st rid Hin) as [-> ->]. exact I.
  - destruct (cleanup_cache_frame cfg target st rid Hnot) as [-> ->]. exact Hc.
Qed.

(** At [st_one], whose only record is evicted. *)
Lemma cleanup_keeps_index_and_blobs_witness :
  Spec.consistent (cleanup_cache cfg_small (Some (1 # 10)%Q) st_one).2.
Proof.
  apply (cleanup_keeps_index_and_blobs cfg_small (Some (1 # 10)%Q) st_one).
  intros rid. unfold Spec.consistent_at.
  destruct (decide (rid = "nes_mario")) as [->|Hne].
  - vm_compute. reflexivity.
  - cbn [st_one db files].
    rewrite lookup_insert_ne by congruence. rewrite lookup_empty.
    rewrite lookup_insert_ne; [rewrite lookup_empty; exact I|].
    intros E. apply Hne. symmetry. exact (join_inj "/cache" _ _ E).
Defined.

End KeepsInStep.

(** ** Ranking by score *)

Section Ranking.

Import Samples.

Lemma platform_term_bounds (cfg : CacheConfig) (platform : option string) :
  (forall p w, platforms_priority cfg !! p = Some w -> 0 <= w <= 10) ->
  0 <= (if truthy platform then Spec.platform_weight cfg platform else 0) * 10
    <= 100.
Proof.
  intros Hw. destruct (truthy platform); [|lia].
  destruct platform as [p|]; cbn [Spec.platform_weight]; [|lia].
  destruct (platforms_priority cfg !! p) as [w|] eqn:E; simpl; [|lia].
  specialize (Hw p w E). lia.
Qed.

Lemma size_term_bounds (e : CacheEntry) : -10 <= Spec.size_term e <= 10.
Proof.
  unfold Spec.size_term.
  destruct (size_bytes e <? 100 * 1024 * 1024); [lia|].
  destruct (5 * 1024 ^ 3 <? size_bytes e); lia.
Qed.

(** With platform weights between 0 and 10, as in the default table, a
    favorite accessed within the last 24 hours scores higher than any
    non-favorite not accessed within the last 24 hours, whatever their
    platforms and sizes. *)
Theorem recent_favorite_outranks (cfg : CacheConfig) (now_a now_b : Q)
    (a b : CacheEntry) (platform_a platform_b : option string) :
  (forall p w, platforms_priority cfg !! p = Some w -> 0 <= w <= 10) ->
  is_favorite a = true ->
  ((now_a - last_accessed a) / 3600 < 24)%Q ->
  is_favorite b = false ->
  (24 <= (now_b - last_accessed b) / 3600)%Q ->
  calculate_priority_score cfg now_b b platform_b
  < calculate_priority_score cfg now_a a platform_a.
Proof.
  intros Hw Hfa Hra Hfb Hrb. rewrite !score_unfold.
  pose proof (platform_term_bounds cfg platform_a Hw).
  pose proof (platform_term_bounds cfg platform_b Hw).
  pose proof (size_term_bounds a). pose proof (size_term_bounds b).
  unfold Spec.favorite_term. rewrite Hfa, Hfb.
  assert (Ha : Spec.recency_term now_a a = 50).
  { unfold Spec.recency_term, Spec.hours_since_access.
    apply Qltb_lt in Hra. rewrite Hra. reflexivity. }
  assert (Hb : Spec.recency_term now_b b <= 20).
  { unfold Spec.recency_term, Spec.hours_since_access.
    apply Qltb_ge in Hrb. rewrite Hrb.
    destruct (Qltb ((now_b - last_accessed b) / 3600) 168); lia. }
  lia.
Qed.

(** The two entries of [test_priority_scoring] under the default
    configuration. *)
Lemma recent_favorite_outranks_witness :
  calculate_priority_score cfg_default 3000000 entry_old_large (Some "psx")
  < calculate_priority_score cfg_default 3000000 entry_recent_fav (Some "nes").
Proof.
  apply (recent_favorite_outranks cfg_default 3000000 3000000
           entry_recent_fav entry_old_large (Some "nes") (Some "psx")).
  - intros p w Hp. apply elem_of_map_to_list in Hp. vm_compute in Hp.
    repeat (apply elem_of_cons in Hp as [Hp|Hp];
            [injection Hp as -> ->; lia|]).
    inversion Hp.
  - reflexivity.
  - vm_compute. reflexivity.
  - reflexivity.
  - vm_compute. discriminate.
Defined.

End Ranking.
